(** * coredns-unifi-names: the client-name cache and its resolver

    A shallow embedding of [names.go] (package [unifinames]) and the
    properties of its sanitizer, snapshot builder, refresh paths and
    resolver.

    Conventions of the embedding.
    - A Go [string] is modelled by the sequence of runes that [[]rune(s)]
      yields (well-formed UTF-8 is assumed, so that byte-wise
      [strings.HasSuffix] and rune-wise comparison agree).  A [rune] is a
      [Z].
    - Library functions whose behaviour rests on tables or on floating
      point (Unicode case tables, [net.ParseIP], the external FQDN check,
      [Duration.Seconds]) are operations of the class [GoRuntime]; the
      plugin code is written once, over any instance.
    - [uint32] arithmetic is [Z] arithmetic with its wrap-around written
      out.
    - The plugin's fields live in the record [unifinames]; methods take
      the record and return the updated one. *)

From Stdlib Require Import ZArith List Ascii String Bool Lia.
From stdpp Require Import base option list gmap.
Import ListNotations.

Local Open Scope Z_scope.

(* ===================================================================== *)
(** ** Runes and strings *)
(* ===================================================================== *)

Definition rune := Z.
Abbreviation gostring := (list Z).

Definition rune_of (a : ascii) : rune := Z.of_N (N_of_ascii a).

(** [str "abc"] is the Go string literal ["abc"] (ASCII literals only). *)
Definition str (s : String.string) : gostring :=
  List.map rune_of (list_ascii_of_string s).

Definition MaxASCII : rune := 127.
Definition dash : rune := rune_of "-"%char.

(* ===================================================================== *)
(** ** The library operations the plugin calls *)
(* ===================================================================== *)

(** [net.IP] is a byte slice; [nil] is [None] at the places that test it. *)
Abbreviation net_IP := (list Z).

Class GoRuntime := {
  (** [unicode.To(unicode.LowerCase, r)], consulted by [unicode.ToLower]
      for runes above [MaxASCII]. *)
  caseTable_ToLower : rune -> rune;
  (** The general case of [strings.EqualFold] on two different runes
      [sr < tr] with [tr] outside ASCII: whether stepping
      [unicode.SimpleFold] from [sr] arrives at [tr]. *)
  simpleFold_reaches : rune -> rune -> bool;
  (** [net.ParseIP]. *)
  net_ParseIP : gostring -> option net_IP;
  (** [dns_val.IsFQDN] of github.com/THREATINT/go-net. *)
  dns_val_IsFQDN : gostring -> bool;
  (** [uint32(d.Seconds())] for a [time.Duration] [d] in nanoseconds,
      before reduction to 32 bits: the conversion goes through float64. *)
  Duration_Seconds_trunc : Z -> Z
}.

Section Strings.
Context `{RT : GoRuntime}.

  (** [unicode.ToLower]. *)
Definition unicode_ToLower (r : rune) : rune :=
    if r <=? MaxASCII then
      if (rune_of "A"%char <=? r) && (r <=? rune_of "Z"%char)
      then r + (rune_of "a"%char - rune_of "A"%char)
      else r
    else caseTable_ToLower r.

  (** [strings.ToLower]: the ASCII fast path and the general path agree
      with mapping [unicode.ToLower] over the runes. *)
Definition strings_ToLower (s : gostring) : gostring :=
    List.map unicode_ToLower s.

  (** One rune comparison of [strings.EqualFold]. *)
Definition foldEqRune (sr tr : rune) : bool :=
    if tr =? sr then true
    else
      let lo := Z.min sr tr in
      let hi := Z.max sr tr in
      if hi <=? MaxASCII then
        (rune_of "A"%char <=? lo) && (lo <=? rune_of "Z"%char)
        && (hi =? lo + (rune_of "a"%char - rune_of "A"%char))
      else simpleFold_reaches lo hi.

  (** [strings.EqualFold]. *)
Fixpoint strings_EqualFold (s t : gostring) : bool :=
    match s, t with
    | [], [] => true
    | sr :: s', tr :: t' => foldEqRune sr tr && strings_EqualFold s' t'
    | _, _ => false
    end.
End Strings.

(** [strings.HasPrefix], and [strings.HasSuffix] as the prefix test on
    the reversed strings. *)
Fixpoint hasPrefix (s p : gostring) : bool :=
  match p, s with
  | [], _ => true
  | x :: p', y :: s' => (x =? y) && hasPrefix s' p'
  | _ :: _, [] => false
  end.

Definition strings_HasSuffix (s suffix : gostring) : bool :=
  hasPrefix (rev s) (rev suffix).

(** [strings.FieldsFunc]: [cur] holds, reversed, the runes of the field
    that is open (empty when no field is open, Go's [start < 0]). *)
Fixpoint fieldsFrom (f : rune -> bool) (cur : list rune) (s : gostring)
  : list gostring :=
  match s with
  | [] => match cur with [] => [] | _ :: _ => [rev cur] end
  | r :: s' =>
      if f r then
        match cur with
        | [] => fieldsFrom f [] s'
        | _ :: _ => rev cur :: fieldsFrom f [] s'
        end
      else fieldsFrom f (r :: cur) s'
  end.

Definition strings_FieldsFunc (s : gostring) (f : rune -> bool) : list gostring :=
  fieldsFrom f [] s.

(** [strings.Join]. *)
Fixpoint strings_Join (elems : list gostring) (sep : gostring) : gostring :=
  match elems with
  | [] => []
  | [e] => e
  | e :: rest => e ++ sep ++ strings_Join rest sep
  end.

(* ===================================================================== *)
(** ** The name sanitizer *)
(* ===================================================================== *)

Fixpoint isAllowedRune (allowedRunes : list rune) (r : rune) : bool :=
  match allowedRunes with
  | [] => false
  | a :: rest => if a =? r then true else isAllowedRune rest r
  end.

Definition allowedRunes : list rune := str "abcdefghijklmnopqrstuvwxyz12345679-".

(** The loop of [sanitizeName] that fills the string builder [sb]. *)
Fixpoint writeRunes (r : list rune) (sb : list rune) : list rune :=
  match r with
  | [] => sb
  | ri :: rest =>
      if isAllowedRune allowedRunes ri
      then writeRunes rest (sb ++ [ri])
      else writeRunes rest (sb ++ [dash])
  end.

Definition sanitizeName `{RT : GoRuntime} (s : gostring) : gostring :=
  match s with
  | [] => []
  | _ :: _ =>
      let s := strings_ToLower s in
      strings_Join
        (strings_FieldsFunc (writeRunes s []) (fun r => r =? dash))
        (str "-")
  end.

(* ===================================================================== *)
(** ** Data of the collaborating packages *)
(* ===================================================================== *)

Definition uint32 (z : Z) : Z := z mod 2 ^ 32.

Module net.
Definition IPv4len : nat := 4.
Definition IPv6len : nat := 16.

  (** [IP.To4]: the 4-byte form of an IPv4 address, [None] for [nil]. *)
Definition To4 (ip : net_IP) : option net_IP :=
    if Nat.eqb (length ip) IPv4len then Some ip
    else if Nat.eqb (length ip) IPv6len
            && forallb (Z.eqb 0) (firstn 10 ip)
            && (nth 10 ip 0 =? 255) && (nth 11 ip 0 =? 255)
    then Some (skipn 12 ip)
    else None.
End net.

Module time.
  (** An instant, in nanoseconds on one time line; a [Duration] is a
      signed 64-bit count of nanoseconds. *)
Definition Time := Z.
Definition minDuration : Z := - 2 ^ 63.
Definition maxDuration : Z := 2 ^ 63 - 1.
Definition Second : Z := 1000000000.

  (** The zero [Time] (January 1, year 1), relative to the Unix epoch. *)
Definition zero : Time := - 62135596800 * Second.

  (** [Time.Sub]: the difference, saturating at the [Duration] bounds. *)
Definition Sub (t u : Time) : Z :=
    Z.max minDuration (Z.min maxDuration (t - u)).
End time.

Module dns.
Definition ClassINET : Z := 1.
Definition TypeA : Z := 1.
Definition TypeAAAA : Z := 28.
Definition OpcodeQuery : Z := 0.
Definition RcodeSuccess : Z := 0.

Record RR_Header := mkHdr {
    Name : gostring;
    Rrtype : Z;
    Class : Z;
    Ttl : Z;
    Rdlength : Z
  }.

Definition setTtl (h : RR_Header) (ttl : Z) : RR_Header :=
    mkHdr (Name h) (Rrtype h) (Class h) ttl (Rdlength h).
Definition setRrtype (h : RR_Header) (t : Z) : RR_Header :=
    mkHdr (Name h) t (Class h) (Ttl h) (Rdlength h).

Record A := mkA { A_Hdr : RR_Header; A_A : net_IP }.
Record AAAA := mkAAAA { AAAA_Hdr : RR_Header; AAAA_AAAA : net_IP }.

  (** The [RR] values the plugin answers with: pointers to its own copies
      of [A] and [AAAA] records. *)
Inductive RR :=
  | RR_A (a : A)
  | RR_AAAA (a : AAAA).

Definition Header (rr : RR) : RR_Header :=
    match rr with RR_A a => A_Hdr a | RR_AAAA a => AAAA_Hdr a end.

Record Question := mkQuestion {
    QName : gostring;   (* field [Name] of [dns.Question] *)
    Qtype : Z;
    Qclass : Z
  }.

Record Msg := mkMsg {
    Id : Z;
    Response : bool;
    Opcode : Z;
    RecursionDesired : bool;
    CheckingDisabled : bool;
    Rcode : Z;
    Questions : list Question;   (* field [Question] of [dns.Msg] *)
    Answer : list RR
  }.

  (** [new(dns.Msg)]. *)
Definition newMsg : Msg := mkMsg 0 false 0 false false 0 [] [].

  (** [Msg.SetReply]. *)
Definition SetReply (m request : Msg) : Msg :=
    mkMsg (Id request) true (Opcode request)
      (if Opcode request =? OpcodeQuery
       then RecursionDesired request else RecursionDesired m)
      (if Opcode request =? OpcodeQuery
       then CheckingDisabled request else CheckingDisabled m)
      RcodeSuccess
      (match Questions request with
       | [] => Questions m
       | q :: _ => [q]
       end)
      (Answer m).

Definition setAnswer (m : Msg) (rrs : list RR) : Msg :=
    mkMsg (Id m) (Response m) (Opcode m) (RecursionDesired m)
      (CheckingDisabled m) (Rcode m) (Questions m) rrs.
End dns.

(** Errors are their messages; [errors.Annotate] prefixes the cause. *)
Definition error := gostring.

Inductive result (T : Type) : Type :=
| Ok (v : T)
| Err (e : error).
Arguments Ok {T} v.
Arguments Err {T} e.

Module errors.
Definition Annotate (err : error) (message : gostring) : error :=
    message ++ str ": " ++ err.
End errors.

Module unifi.
Record Config := mkConfig {
    User : gostring;
    Pass : gostring;
    URL : gostring;
    VerifySSL : bool
  }.

  (** The fields of [unifi.Client] that the plugin reads. *)
Record Client := mkClient {
    Name : gostring;
    Hostname : gostring;
    IP : gostring;
    Network : gostring
  }.

Record Site := mkSite { SiteName : gostring }.

  (** A controller handle: the outcome of its two listing calls. *)
Record Unifi := mkUnifi {
    GetSites : result (list Site);
    GetClients : list Site -> result (list Client)
  }.

  (** [unifi.NewUnifi], an outcome of the outside world. *)
Definition Controller := Config -> result Unifi.
End unifi.

(* ===================================================================== *)
(** ** The plugin *)
(* ===================================================================== *)

(** Modelled from the spec: the [config] struct is declared outside
    names.go; these are the fields names.go reads, with the types its
    uses fix ([Networks] is indexed by a string and ranged over for its
    values, [TTL] is subtracted from a [uint32]). *)
Record config := mkConfigOf {
  Networks : gmap (list Z) (list Z);
  TTL : Z;
  Debug : bool;
  UseNameAsHostname : bool;
  UnifiUsername : gostring;
  UnifiPassword : gostring;
  UnifiControllerURL : gostring;
  UnifiVerifySSL : bool
}.

(** The struct [unifinames] without [Next] and [mu]: the model is
    sequential, so the mutex is always free when it is taken. *)
Record unifinames := mkPlugin {
  Config : config;
  aClients : list dns.A;
  aaaaClients : list dns.AAAA;
  lastUpdate : time.Time;
  IsReady : bool;
  haveRoutine : bool
}.

Definition set_aClients (p : unifinames) (l : list dns.A) : unifinames :=
  mkPlugin (Config p) l (aaaaClients p) (lastUpdate p) (IsReady p) (haveRoutine p).
Definition set_aaaaClients (p : unifinames) (l : list dns.AAAA) : unifinames :=
  mkPlugin (Config p) (aClients p) l (lastUpdate p) (IsReady p) (haveRoutine p).
Definition set_lastUpdate (p : unifinames) (t : time.Time) : unifinames :=
  mkPlugin (Config p) (aClients p) (aaaaClients p) t (IsReady p) (haveRoutine p).
Definition set_IsReady (p : unifinames) (b : bool) : unifinames :=
  mkPlugin (Config p) (aClients p) (aaaaClients p) (lastUpdate p) b (haveRoutine p).
Definition set_haveRoutine (p : unifinames) (b : bool) : unifinames :=
  mkPlugin (Config p) (aClients p) (aaaaClients p) (lastUpdate p) (IsReady p) b.

(** The zero value of the struct around a configuration. *)
Definition newPlugin (c : config) : unifinames :=
  mkPlugin c [] [] time.zero false false.

Definition isEmpty (s : gostring) : bool :=
  match s with [] => true | _ :: _ => false end.

(** [shouldHandle]: the range over the map's values is an existence
    test, so its order does not matter. *)
Definition shouldHandle (p : unifinames) (name : gostring) : bool :=
  existsb (fun kv => strings_HasSuffix name (snd kv))
          (map_to_list (Networks (Config p))).

Section Plugin.
Context `{RT : GoRuntime}.

(** *** getClients *)

(** The body of the loop over [clients]: [continue] returns [p] as it
    is. *)
Definition addClient (p : unifinames) (entry : unifi.Client) : unifinames :=
  let selected :=
    if UseNameAsHostname (Config p) then unifi.Name entry
    else unifi.Hostname entry in
  let dns_name := strings_ToLower (sanitizeName selected) in
  if isEmpty selected then p
  else if isEmpty dns_name then p
  else if dns_val_IsFQDN dns_name then p
  else
    match net_ParseIP (unifi.IP entry) with
    | None => p
    | Some ip =>
        match Networks (Config p) !! strings_ToLower (unifi.Network entry) with
        | None => p
        | Some domain =>
            let hdr :=
              dns.mkHdr (dns_name ++ str "." ++ domain) 0 dns.ClassINET 0 0 in
            match net.To4 ip with
            | Some _ =>
                set_aClients p
                  (aClients p ++ [dns.mkA (dns.setRrtype hdr dns.TypeA) ip])
            | None =>
                set_aaaaClients p
                  (aaaaClients p
                     ++ [dns.mkAAAA (dns.setRrtype hdr dns.TypeAAAA) ip])
            end
        end
    end.

Fixpoint addClients (p : unifinames) (clients : list unifi.Client) : unifinames :=
  match clients with
  | [] => p
  | entry :: rest => addClients (addClient p entry) rest
  end.

(** [getClients]: the updated plugin and the returned error ([None] is
    [nil]).  Logging and the hosts gauge are left out. *)
Definition getClients (p : unifinames) (ctl : unifi.Controller)
  : unifinames * option error :=
  let c :=
    unifi.mkConfig (UnifiUsername (Config p)) (UnifiPassword (Config p))
      (UnifiControllerURL (Config p)) (UnifiVerifySSL (Config p)) in
  match ctl c with
  | Err err =>
      (p, Some (errors.Annotate err
                  (str "coredns-unifi-names: unable to create unifi client")))
  | Ok uni =>
      match unifi.GetSites uni with
      | Err err =>
          (p, Some (errors.Annotate err
                      (str "coredns-unifi-names: unable to get sites")))
      | Ok sites =>
          match unifi.GetClients uni sites with
          | Err err =>
              (p, Some (errors.Annotate err
                          (str "coredns-unifi-names: unable to get clients")))
          | Ok clients =>
              let p := set_aClients p [] in
              let p := set_aaaaClients p [] in
              (addClients p clients, None)
          end
      end
  end.

(** *** The two refresh paths *)

(** The closure [update] of the goroutine that [ServeDNS] starts; [now]
    is the reading of [time.Now()] when it is reached. *)
Definition update (p : unifinames) (ctl : unifi.Controller) (now : time.Time)
  : unifinames :=
  match getClients p ctl with
  | (p, Some _) => p
  | (p, None) => set_lastUpdate p now
  end.

(** [Ready]. *)
Definition Ready (p : unifinames) (ctl : unifi.Controller) (now : time.Time)
  : unifinames * bool :=
  if negb (IsReady p) then
    let p :=
      match getClients p ctl with
      | (p, Some _) => set_IsReady p true
      | (p, None) => p
      end in
    let p := set_lastUpdate p now in
    let p := set_IsReady p true in
    (p, IsReady p)
  else (p, IsReady p).

(** *** resolve *)

(** [p.Config.TTL - uint32(time.Now().Sub(p.lastUpdate).Seconds())]. *)
Definition liveTtl (p : unifinames) (now : time.Time) : Z :=
  uint32 (TTL (Config p)
          - uint32 (Duration_Seconds_trunc (time.Sub now (lastUpdate p)))).

(** The scan of [p.aClients]: [client] is the loop variable, a copy of
    the element; the [break] ends the recursion. *)
Fixpoint scanA (p : unifinames) (clients : list dns.A) (name : gostring)
  (now : time.Time) (rrs : list dns.RR) : unifinames * list dns.RR :=
  match clients with
  | [] => (p, rrs)
  | client :: rest =>
      if strings_EqualFold (dns.Name (dns.A_Hdr client)) name then
        let client :=
          dns.mkA (dns.setTtl (dns.A_Hdr client) (liveTtl p now))
                  (dns.A_A client) in
        (p, rrs ++ [dns.RR_A client])
      else scanA p rest name now rrs
  end.

Fixpoint scanAAAA (p : unifinames) (clients : list dns.AAAA) (name : gostring)
  (now : time.Time) (rrs : list dns.RR) : unifinames * list dns.RR :=
  match clients with
  | [] => (p, rrs)
  | client :: rest =>
      if strings_EqualFold (dns.Name (dns.AAAA_Hdr client)) name then
        let client :=
          dns.mkAAAA (dns.setTtl (dns.AAAA_Hdr client) (liveTtl p now))
                     (dns.AAAA_AAAA client) in
        (p, rrs ++ [dns.RR_AAAA client])
      else scanAAAA p rest name now rrs
  end.

(** The body of the loop over [r.Question]. *)
Definition resolveQuestion (p : unifinames) (question : dns.Question)
  (now : time.Time) (rrs : list dns.RR) : unifinames * list dns.RR :=
  if negb (dns.Qclass question =? dns.ClassINET) then (p, rrs)
  else if dns.Qtype question =? dns.TypeA then
    if shouldHandle p (strings_ToLower (dns.QName question))
    then scanA p (aClients p) (dns.QName question) now rrs
    else (p, rrs)
  else if dns.Qtype question =? dns.TypeAAAA then
    if shouldHandle p (strings_ToLower (dns.QName question))
    then scanAAAA p (aaaaClients p) (dns.QName question) now rrs
    else (p, rrs)
  else (p, rrs).

(** The loop over [r.Question] from index [i]; [clock i] is what
    [time.Now()] returns while question [i] is handled. *)
Fixpoint resolveLoop (p : unifinames) (questions : list dns.Question)
  (clock : nat -> time.Time) (i : nat) (rrs : list dns.RR)
  : unifinames * list dns.RR :=
  match questions with
  | [] => (p, rrs)
  | question :: rest =>
      let '(p, rrs) := resolveQuestion p question (clock i) rrs in
      resolveLoop p rest clock (S i) rrs
  end.

(** [resolve]: the plugin afterwards, the returned boolean, and the
    message handed to [w.WriteMsg] if any. *)
Definition resolve (p : unifinames) (r : dns.Msg) (clock : nat -> time.Time)
  : unifinames * bool * option dns.Msg :=
  match dns.Questions r with
  | [] => (p, false, None)
  | _ :: _ =>
      let '(p, rrs) := resolveLoop p (dns.Questions r) clock 0%nat [] in
      match rrs with
      | _ :: _ =>
          let m := dns.SetReply dns.newMsg r in
          let m := dns.setAnswer m rrs in
          (p, true, Some m)
      | [] => (p, false, None)
      end
  end.

(** *** ServeDNS, one handler run to completion *)

Inductive served :=
| Answered (rcode : Z) (m : dns.Msg)
| NextOrFailure.

(** The plugin afterwards, whether this call started the refresh
    goroutine, and the outcome for the caller. *)
Definition ServeDNS (p : unifinames) (r : dns.Msg) (clock : nat -> time.Time)
  : unifinames * bool * served :=
  let started := negb (haveRoutine p) in
  let p := if negb (haveRoutine p) then set_haveRoutine p true else p in
  match resolve p r clock with
  | (p, true, Some m) => (p, started, Answered dns.RcodeSuccess m)
  | (p, _, _) => (p, started, NextOrFailure)
  end.

End Plugin.

(* ===================================================================== *)
(** ** The guard of ServeDNS under interleaving *)
(* ===================================================================== *)

(** Several handlers run the head of [ServeDNS] at once.  The atomic
    operations [haveRoutine.Load] and [haveRoutine.Store] and the [go]
    statement are the steps; a schedule lists which handler moves next. *)
Module Guard.

Inductive pc :=
| AtLoad      (* before [p.haveRoutine.Load()] *)
| AtStore     (* loaded [false]; before [p.haveRoutine.Store(true)] *)
| AtGo        (* stored; before [go func() ...] *)
| PastGuard.  (* at [UnifinamesCount.Inc()] *)

Record state := mkState {
  flag : bool;          (* [p.haveRoutine] *)
  goroutines : nat;     (* refresh goroutines started so far *)
  handlers : list pc
}.

Definition step (g : state) (i : nat) : option state :=
  match handlers g !! i with
  | Some AtLoad =>
      Some (mkState (flag g) (goroutines g)
              (<[i := if flag g then PastGuard else AtStore]> (handlers g)))
  | Some AtStore =>
      Some (mkState true (goroutines g) (<[i := AtGo]> (handlers g)))
  | Some AtGo =>
      Some (mkState (flag g) (S (goroutines g))
              (<[i := PastGuard]> (handlers g)))
  | Some PastGuard | None => None
  end.

Fixpoint run (g : state) (schedule : list nat) : option state :=
  match schedule with
  | [] => Some g
  | i :: rest =>
      match step g i with
      | Some g' => run g' rest
      | None => None
      end
  end.

(** [n] handlers arrive at a plugin that has served no query yet. *)
Definition fresh (n : nat) : state := mkState false 0 (repeat AtLoad n).

End Guard.

(* ===================================================================== *)
(** ** Predicates used in the statements *)
(* ===================================================================== *)

(** The rune written to the builder for the rune [r]. *)
Definition written (r : rune) : rune :=
  if isAllowedRune allowedRunes r then r else dash.

(** The allow-list in words: [a-z], [1-7], [9] and [-]. *)
Definition inAllowList (r : rune) : bool :=
  ((rune_of "a"%char <=? r) && (r <=? rune_of "z"%char))
  || ((rune_of "1"%char <=? r) && (r <=? rune_of "7"%char))
  || (r =? rune_of "9"%char)
  || (r =? rune_of "-"%char).

(** A rune of the class [[a-z0-9-]]. *)
Definition isLabelRune (r : rune) : bool :=
  ((rune_of "a"%char <=? r) && (r <=? rune_of "z"%char))
  || ((rune_of "0"%char <=? r) && (r <=? rune_of "9"%char))
  || (r =? rune_of "-"%char).

(** No [-] at the start (when [afterDash] is set at the start), none
    next to another, none at the end. *)
Fixpoint squeezed (afterDash : bool) (t : gostring) : bool :=
  match t with
  | [] => negb afterDash
  | r :: t' =>
      if r =? dash then negb afterDash && squeezed true t'
      else squeezed false t'
  end.

(** A field as [strings.FieldsFunc] returns it: not empty, free of [-]. *)
Definition isField (fld : gostring) : Prop :=
  fld <> [] /\ Forall (fun r => (r =? dash) = false) fld.

Section StatementPredicates.
Context `{RT : GoRuntime}.

(** The display name chosen by the toggle. *)
Definition selectedName (p : unifinames) (entry : unifi.Client) : gostring :=
  if UseNameAsHostname (Config p) then unifi.Name entry
  else unifi.Hostname entry.

(** The entries that the snapshot builder filters out. *)
Definition filteredOut (p : unifinames) (entry : unifi.Client) : Prop :=
  selectedName p entry = []
  \/ sanitizeName (selectedName p entry) = []
  \/ net_ParseIP (unifi.IP entry) = None
  \/ Networks (Config p) !! strings_ToLower (unifi.Network entry) = None.

(** The upstream fetch fails: at the construction of the client, at the
    site listing or at the client listing. *)
Definition fetchFails (p : unifinames) (ctl : unifi.Controller) : Prop :=
  let c :=
    unifi.mkConfig (UnifiUsername (Config p)) (UnifiPassword (Config p))
      (UnifiControllerURL (Config p)) (UnifiVerifySSL (Config p)) in
  (exists e, ctl c = Err e)
  \/ (exists uni e, ctl c = Ok uni /\ unifi.GetSites uni = Err e)
  \/ (exists uni sites e,
        ctl c = Ok uni /\ unifi.GetSites uni = Ok sites
        /\ unifi.GetClients uni sites = Err e).

(** The upstream fetch succeeds and lists [clients]. *)
Definition fetchYields (p : unifinames) (ctl : unifi.Controller)
  (clients : list unifi.Client) : Prop :=
  let c :=
    unifi.mkConfig (UnifiUsername (Config p)) (UnifiPassword (Config p))
      (UnifiControllerURL (Config p)) (UnifiVerifySSL (Config p)) in
  exists uni sites,
    ctl c = Ok uni /\ unifi.GetSites uni = Ok sites
    /\ unifi.GetClients uni sites = Ok clients.

(** The lower-cased name ends with none of the configured domains. *)
Definition outsideServedSuffixes (p : unifinames) (name : gostring) : Prop :=
  forall network domain,
    Networks (Config p) !! network = Some domain ->
    strings_HasSuffix (strings_ToLower name) domain = false.

(** The lower-cased name ends with one of the configured domains. *)
Definition insideServedSuffix (p : unifinames) (name : gostring) : Prop :=
  exists network domain,
    Networks (Config p) !! network = Some domain
    /\ strings_HasSuffix (strings_ToLower name) domain = true.

(** The name ends with [domain] when letter case is ignored: a suffix
    of it equals [domain] under case folding. *)
Definition endsWithFold (name domain : gostring) : Prop :=
  exists pre t, name = pre ++ t /\ strings_EqualFold t domain = true.

(** The whole seconds from [lastUpdate] to [now]. *)
Definition wholeSecondsSince (p : unifinames) (now : time.Time) : Z :=
  (now - lastUpdate p) / time.Second.

(** Whole seconds since [lastUpdate], as the [uint32] the code subtracts. *)
Definition elapsedSeconds (p : unifinames) (now : time.Time) : Z :=
  uint32 (Duration_Seconds_trunc (time.Sub now (lastUpdate p))).

(** [c] is the first record of [p.aClients] whose name equals [name]
    under case folding; likewise for [p.aaaaClients]. *)
Definition firstMatchA (p : unifinames) (name : gostring) (c : dns.A) : Prop :=
  exists before after,
    aClients p = before ++ c :: after
    /\ strings_EqualFold (dns.Name (dns.A_Hdr c)) name = true
    /\ Forall (fun c' => strings_EqualFold (dns.Name (dns.A_Hdr c')) name = false)
         before.

Definition firstMatchAAAA (p : unifinames) (name : gostring) (c : dns.AAAA) : Prop :=
  exists before after,
    aaaaClients p = before ++ c :: after
    /\ strings_EqualFold (dns.Name (dns.AAAA_Hdr c)) name = true
    /\ Forall (fun c' => strings_EqualFold (dns.Name (dns.AAAA_Hdr c')) name = false)
         before.

(** The question is of type A or AAAA and its name is present in the
    record list of that type. *)
Definition cached (p : unifinames) (q : dns.Question) : Prop :=
  (dns.Qtype q = dns.TypeA
   /\ exists c, In c (aClients p)
        /\ strings_EqualFold (dns.Name (dns.A_Hdr c)) (dns.QName q) = true)
  \/ (dns.Qtype q = dns.TypeAAAA
      /\ exists c, In c (aaaaClients p)
           /\ strings_EqualFold (dns.Name (dns.AAAA_Hdr c)) (dns.QName q) = true).

(** [rr] is the first matching record of the question's type, with the
    TTL field of the copy set to [ttl]. *)
Definition answerOf (p : unifinames) (q : dns.Question) (ttl : Z) (rr : dns.RR)
  : Prop :=
  match rr with
  | dns.RR_A a =>
      dns.Qtype q = dns.TypeA
      /\ exists c, firstMatchA p (dns.QName q) c
           /\ a = dns.mkA (dns.setTtl (dns.A_Hdr c) ttl) (dns.A_A c)
  | dns.RR_AAAA a =>
      dns.Qtype q = dns.TypeAAAA
      /\ exists c, firstMatchAAAA p (dns.QName q) c
           /\ a = dns.mkAAAA (dns.setTtl (dns.AAAA_Hdr c) ttl) (dns.AAAA_AAAA c)
  end.

End StatementPredicates.

(* ===================================================================== *)
(** ** A runtime instance and the objects of the scenarios *)
(* ===================================================================== *)

Definition isDigit (r : rune) : bool :=
  (rune_of "0"%char <=? r) && (r <=? rune_of "9"%char).

Fixpoint splitDots (s : gostring) (cur : list rune) : list gostring :=
  match s with
  | [] => [rev cur]
  | r :: s' =>
      if r =? rune_of "."%char then rev cur :: splitDots s' []
      else splitDots s' (r :: cur)
  end.

(** A decimal octet: one to three digits, no leading zero, at most 255. *)
Definition parseOctet (f : gostring) : option Z :=
  match f with
  | [] => None
  | d :: more =>
      if forallb isDigit f && (length f <=? 3)%nat
         && negb ((d =? rune_of "0"%char) && negb (isEmpty more))
      then
        let v := fold_left (fun acc r => acc * 10 + (r - rune_of "0"%char)) f 0 in
        if v <=? 255 then Some v else None
      else None
  end.

(** Dotted-quad text to the 16-byte form [net.ParseIP] returns. *)
Definition parseDottedQuad (s : gostring) : option net_IP :=
  match splitDots s [] with
  | [a; b; c; d] =>
      match parseOctet a, parseOctet b, parseOctet c, parseOctet d with
      | Some a, Some b, Some c, Some d =>
          Some [0; 0; 0; 0; 0; 0; 0; 0; 0; 0; 255; 255; a; b; c; d]
      | _, _, _, _ => None
      end
  | _ => None
  end.

(** A runtime for ASCII names and IPv4 literals: no case pairs beyond
    ASCII, an FQDN is a name with a dot in it, and a duration of whole
    seconds converts exactly. *)
Definition asciiRuntime : GoRuntime := {|
  caseTable_ToLower := fun r => r;
  simpleFold_reaches := fun _ _ => false;
  net_ParseIP := parseDottedQuad;
  dns_val_IsFQDN := fun s => existsb (Z.eqb (rune_of "."%char)) s;
  Duration_Seconds_trunc := fun d => Z.quot d time.Second
|}.

(** Network ["lan"] published under [domain], TTL 300, display names
    taken from the [hostname] field. *)
Definition lanConfig (domain : gostring) : config :=
  mkConfigOf {[ str "lan" := domain ]} 300 false false [] [] [] false.

(** A controller whose three calls succeed and that lists [clients]. *)
Definition controllerListing (clients : list unifi.Client) : unifi.Controller :=
  fun _ => Ok (unifi.mkUnifi (Ok []) (fun _ => Ok clients)).

(** A controller whose site listing fails. *)
Definition controllerDown : unifi.Controller :=
  fun _ => Ok (unifi.mkUnifi (Err (str "connection refused"))
                 (fun _ => Ok [])).

Definition livingRoomTV (name : gostring) : unifi.Client :=
  unifi.mkClient name (str "Living Room TV") (str "192.168.1.20") (str "lan").

Definition addr_192_168_1_20 : net_IP :=
  [0; 0; 0; 0; 0; 0; 0; 0; 0; 0; 255; 255; 192; 168; 1; 20].

(** The A record of the television under [domain], with TTL [ttl]. *)
Definition tvRecord (domain : gostring) (ttl : Z) : dns.A :=
  dns.mkA
    (dns.mkHdr (str "living-room-tv." ++ domain) dns.TypeA dns.ClassINET ttl 0)
    addr_192_168_1_20.

(** The plugin after one refresh at [t0] that listed the television,
    under [asciiRuntime]. *)
Definition refreshedOnce (domain : gostring) (t0 : time.Time) : unifinames :=
  update (RT := asciiRuntime) (newPlugin (lanConfig domain))
    (controllerListing [livingRoomTV []]) t0.

Definition tvQuestion : dns.Question :=
  dns.mkQuestion (str "living-room-tv.home.arpa.") dns.TypeA dns.ClassINET.

Definition printer : unifi.Client :=
  unifi.mkClient (str "Printer") [] (str "192.168.1.30") (str "lan").

(** A query with the one question [(name, qtype, IN)]. *)
Definition query (name : gostring) (qtype : Z) : dns.Msg :=
  dns.mkMsg 4660 false dns.OpcodeQuery true false 0
    [dns.mkQuestion name qtype dns.ClassINET] [].

(* ===================================================================== *)
(** ** Predicates of the further properties *)
(* ===================================================================== *)

(** A label in the sanitizer's normal form: allowed runes only, no [-]
    at either end and no two [-] in a row. *)
Definition cleanLabel (t : gostring) : Prop :=
  Forall (fun r => isAllowedRune allowedRunes r = true) t
  /\ (forall pre post, t <> pre ++ str "--" ++ post)
  /\ (forall u, t <> str "-" ++ u)
  /\ (forall u, t <> u ++ str "-").

(** A string of ASCII runes. *)
Definition asciiOnly (s : gostring) : Prop :=
  Forall (fun r => 0 <= r <= MaxASCII) s.

Section FurtherPredicates.
Context `{RT : GoRuntime}.

(** The header and address that the loop body of [getClients] builds
    from an entry it keeps. *)
Definition recordOf (p : unifinames) (entry : unifi.Client)
  (h : dns.RR_Header) (ip : net_IP) (rrtype : Z) : Prop :=
  selectedName p entry <> []
  /\ sanitizeName (selectedName p entry) <> []
  /\ dns_val_IsFQDN (sanitizeName (selectedName p entry)) = false
  /\ net_ParseIP (unifi.IP entry) = Some ip
  /\ exists domain,
       Networks (Config p) !! strings_ToLower (unifi.Network entry) = Some domain
       /\ h = dns.mkHdr (sanitizeName (selectedName p entry) ++ str "." ++ domain)
                rrtype dns.ClassINET 0 0.

(** A question the resolver answers: class IN, name under a configured
    domain, and present in the record list of its type. *)
Definition answerable (p : unifinames) (q : dns.Question) : Prop :=
  dns.Qclass q = dns.ClassINET
  /\ insideServedSuffix p (dns.QName q)
  /\ cached p q.

End FurtherPredicates.

(** How many handlers stand at the position [c]. *)
Definition pc_eqb (a b : Guard.pc) : bool :=
  match a, b with
  | Guard.AtLoad, Guard.AtLoad
  | Guard.AtStore, Guard.AtStore
  | Guard.AtGo, Guard.AtGo
  | Guard.PastGuard, Guard.PastGuard => true
  | _, _ => false
  end.

Definition standing (c : Guard.pc) (l : list Guard.pc) : nat :=
  length (List.filter (pc_eqb c) l).

(** What every reachable state of the guard satisfies. *)
Definition guardInv (g : Guard.state) : Prop :=
  (Guard.flag g = false ->
   Guard.goroutines g = 0%nat
   /\ standing Guard.AtGo (Guard.handlers g) = 0%nat
   /\ standing Guard.PastGuard (Guard.handlers g) = 0%nat)
  /\ (Guard.flag g = true ->
      (1 <= Guard.goroutines g + standing Guard.AtGo (Guard.handlers g))%nat)
  /\ (Guard.goroutines g <= standing Guard.PastGuard (Guard.handlers g))%nat.

(** A controller whose client construction fails. *)
Definition controllerUnreachable : unifi.Controller :=
  fun _ => Err (str "no route to host").

Definition laptop : unifi.Client :=
  unifi.mkClient (str "Laptop") (str "work--laptop_08") (str "192.168.1.40")
    (str "LAN").

(* ===================================================================== *)
(** ** The sanitizer: shape of its result *)
(* ===================================================================== *)

#[global] Arguments rune_of : simpl never.
#[global] Arguments dash : simpl never.
#[global] Arguments allowedRunes : simpl never.
#[global] Arguments str : simpl never.

Lemma str_dash : str "-" = [dash].
Proof. reflexivity. Qed.

Lemma writeRunes_map (r sb : list rune) :
  writeRunes r sb = sb ++ List.map written r.
Proof.
  revert sb. induction r as [|ri rest IH]; intros sb; cbn [writeRunes List.map].
  - now rewrite app_nil_r.
  - assert (Hw : written ri = if isAllowedRune allowedRunes ri then ri else dash)
      by reflexivity.
    rewrite Hw.
    destruct (isAllowedRune allowedRunes ri); rewrite IH, <- app_assoc; reflexivity.
Qed.

Lemma isAllowedRune_In (l : list rune) (r : rune) :
  isAllowedRune l r = true <-> In r l.
Proof.
  induction l as [|a l IH]; simpl.
  - split; [discriminate | tauto].
  - destruct (Z.eqb_spec a r) as [->|Hne].
    + split; auto.
    + rewrite IH. split; [auto | intros [Heq|Hin]; [contradiction | exact Hin]].
Qed.

Lemma allowed_inAllowList (r : rune) :
  isAllowedRune allowedRunes r = inAllowList r.
Proof.
  apply eq_true_iff_eq. rewrite isAllowedRune_In.
  let l := eval vm_compute in allowedRunes in change allowedRunes with l.
  unfold inAllowList.
  change (rune_of "a") with 97; change (rune_of "z") with 122;
  change (rune_of "1") with 49; change (rune_of "7") with 55;
  change (rune_of "9") with 57; change (rune_of "-") with 45.
  rewrite !orb_true_iff, !andb_true_iff, !Z.leb_le, !Z.eqb_eq.
  simpl In. lia.
Qed.

Lemma allowed_dash : isAllowedRune allowedRunes dash = true.
Proof. reflexivity. Qed.

Lemma written_allowed (r : rune) : isAllowedRune allowedRunes (written r) = true.
Proof.
  unfold written. destruct (isAllowedRune allowedRunes r) eqn:E; [exact E | exact allowed_dash].
Qed.

Lemma written_fixes_allowed (r : rune) :
  isAllowedRune allowedRunes r = true -> written r = r.
Proof. intros H. unfold written. now rewrite H. Qed.

Lemma allowed_isLabelRune (r : rune) :
  isAllowedRune allowedRunes r = true -> isLabelRune r = true.
Proof.
  rewrite allowed_inAllowList. unfold inAllowList, isLabelRune.
  change (rune_of "a") with 97; change (rune_of "z") with 122;
  change (rune_of "1") with 49; change (rune_of "7") with 55;
  change (rune_of "9") with 57; change (rune_of "-") with 45;
  change (rune_of "0") with 48.
  rewrite !orb_true_iff, !andb_true_iff, !Z.leb_le, !Z.eqb_eq. lia.
Qed.

Lemma allowed_not_0_8 (r : rune) :
  isAllowedRune allowedRunes r = true ->
  r <> rune_of "0"%char /\ r <> rune_of "8"%char.
Proof.
  rewrite allowed_inAllowList. unfold inAllowList.
  change (rune_of "a") with 97; change (rune_of "z") with 122;
  change (rune_of "1") with 49; change (rune_of "7") with 55;
  change (rune_of "9") with 57; change (rune_of "-") with 45;
  change (rune_of "0") with 48; change (rune_of "8") with 56.
  rewrite !orb_true_iff, !andb_true_iff, !Z.leb_le, !Z.eqb_eq. lia.
Qed.

Lemma ToLower_fixes_allowed `{RT : GoRuntime} (r : rune) :
  isAllowedRune allowedRunes r = true -> unicode_ToLower r = r.
Proof.
  rewrite allowed_inAllowList. unfold inAllowList, unicode_ToLower, MaxASCII.
  change (rune_of "a") with 97; change (rune_of "z") with 122;
  change (rune_of "1") with 49; change (rune_of "7") with 55;
  change (rune_of "9") with 57; change (rune_of "-") with 45;
  change (rune_of "A") with 65; change (rune_of "Z") with 90.
  rewrite !orb_true_iff, !andb_true_iff, !Z.leb_le, !Z.eqb_eq. intros Hr.
  destruct (Z.leb_spec r 127); [|lia].
  destruct (Z.leb_spec 65 r); destruct (Z.leb_spec r 90); simpl; try reflexivity; lia.
Qed.

(** *** Fields *)

Lemma fieldsFrom_Forall (P : rune -> Prop) (f : rune -> bool) (s cur : list rune) :
  Forall P cur -> Forall P s -> Forall (Forall P) (fieldsFrom f cur s).
Proof.
  revert cur. induction s as [|r s IH]; intros cur Hcur Hs; simpl.
  - destruct cur; constructor; [|constructor].
    apply Forall_rev. exact Hcur.
  - inversion Hs as [|? ? Hr Hs']; subst.
    destruct (f r).
    + destruct cur as [|c cur'].
      * apply IH; [constructor | exact Hs'].
      * constructor; [apply Forall_rev; exact Hcur | apply IH; [constructor | exact Hs']].
    + apply IH; [constructor; assumption | exact Hs'].
Qed.

Lemma fieldsFrom_isField (s cur : list rune) :
  Forall (fun r => (r =? dash) = false) cur ->
  Forall isField (fieldsFrom (fun r => r =? dash) cur s).
Proof.
  revert cur. induction s as [|r s IH]; intros cur Hcur; simpl.
  - destruct cur as [|c cur']; constructor; [|constructor].
    split; [|apply Forall_rev; exact Hcur].
    intros Hnil. apply (f_equal (@rev rune)) in Hnil.
    rewrite rev_involutive in Hnil. discriminate.
  - destruct (r =? dash) eqn:E.
    + destruct cur as [|c cur'].
      * apply IH. constructor.
      * constructor; [|apply IH; constructor].
        split; [|apply Forall_rev; exact Hcur].
        intros Hnil. apply (f_equal (@rev rune)) in Hnil.
        rewrite rev_involutive in Hnil. discriminate.
    + apply IH. constructor; assumption.
Qed.

(** Reading a dash-free stretch only extends the open field. *)
Lemma fieldsFrom_app_field (fld cur rest : list rune) :
  Forall (fun r => (r =? dash) = false) fld ->
  fieldsFrom (fun r => r =? dash) cur (fld ++ rest)
  = fieldsFrom (fun r => r =? dash) (rev fld ++ cur) rest.
Proof.
  revert cur. induction fld as [|r fld IH]; intros cur Hf; simpl.
  - reflexivity.
  - inversion Hf as [|? ? Hr Hf']; subst. rewrite Hr, IH by exact Hf'.
    now rewrite <- app_assoc.
Qed.

Lemma fieldsFrom_end (f : rune -> bool) (cur : list rune) :
  cur <> [] -> fieldsFrom f cur [] = [rev cur].
Proof. destruct cur; [contradiction | reflexivity]. Qed.

Lemma fieldsFrom_dash (cur s : list rune) :
  cur <> [] ->
  fieldsFrom (fun r => r =? dash) cur (dash :: s)
  = rev cur :: fieldsFrom (fun r => r =? dash) [] s.
Proof.
  intros Hne. cbn [fieldsFrom]. rewrite Z.eqb_refl.
  destruct cur; [contradiction | reflexivity].
Qed.

Lemma rev_not_nil {T : Type} (l : list T) : l <> [] -> rev l <> [].
Proof.
  intros Hne Hnil. apply Hne. rewrite <- (rev_involutive l), Hnil. reflexivity.
Qed.

Lemma fields_Join (fs : list gostring) :
  Forall isField fs ->
  strings_FieldsFunc (strings_Join fs [dash]) (fun r => r =? dash) = fs.
Proof.
  unfold strings_FieldsFunc.
  induction fs as [|e rest IH]; intros Hfs; [reflexivity|].
  inversion Hfs as [|? ? [Hne Hfree] Hrest]; subst.
  destruct rest as [|e2 rest].
  - cbn [strings_Join]. rewrite <- (app_nil_r e) at 1.
    rewrite fieldsFrom_app_field by exact Hfree. rewrite app_nil_r.
    rewrite fieldsFrom_end by (apply rev_not_nil; exact Hne).
    now rewrite rev_involutive.
  - change (strings_Join (e :: e2 :: rest) [dash])
      with (e ++ dash :: strings_Join (e2 :: rest) [dash]).
    rewrite fieldsFrom_app_field by exact Hfree. rewrite app_nil_r.
    rewrite fieldsFrom_dash by (apply rev_not_nil; exact Hne).
    rewrite rev_involutive. f_equal. apply IH. exact Hrest.
Qed.

Lemma Join_Forall (P : rune -> Prop) (fs : list gostring) :
  P dash -> Forall (Forall P) fs -> Forall P (strings_Join fs [dash]).
Proof.
  intros Hd. induction fs as [|e rest IH]; intros Hfs; [constructor|].
  inversion Hfs as [|? ? He Hrest]; subst.
  destruct rest as [|e2 rest]; [exact He|].
  change (strings_Join (e :: e2 :: rest) [dash])
    with (e ++ [dash] ++ strings_Join (e2 :: rest) [dash]).
  apply Forall_app. split; [exact He|].
  apply Forall_app. split; [constructor; [exact Hd | constructor] | apply IH; exact Hrest].
Qed.

(** *** Dashes in a joined list of fields *)

Lemma squeezed_app_field (fld rest : list rune) (b : bool) :
  isField fld -> squeezed b (fld ++ rest) = squeezed false rest.
Proof.
  intros [Hne Hfree]. revert b.
  induction fld as [|r fld IH]; intros b; [contradiction|].
  inversion Hfree as [|? ? Hr Hfree']; subst. simpl. rewrite Hr.
  destruct fld as [|r2 fld]; [reflexivity|].
  apply IH; [discriminate | exact Hfree'].
Qed.

Lemma squeezed_Join (fs : list gostring) :
  Forall isField fs -> fs <> [] -> squeezed true (strings_Join fs [dash]) = true.
Proof.
  induction fs as [|e rest IH]; intros Hfs Hne; [contradiction|].
  inversion Hfs as [|? ? He Hrest]; subst.
  destruct rest as [|e2 rest].
  - simpl. rewrite <- (app_nil_r e). now rewrite squeezed_app_field.
  - change (strings_Join (e :: e2 :: rest) [dash])
      with (e ++ dash :: strings_Join (e2 :: rest) [dash]).
    rewrite squeezed_app_field by exact He.
    cbn [squeezed]. rewrite Z.eqb_refl. simpl negb. simpl andb.
    apply IH; [exact Hrest | discriminate].
Qed.

Lemma squeezed_sound (t : gostring) (b : bool) :
  squeezed b t = true ->
  (forall pre post, t <> pre ++ dash :: dash :: post)
  /\ (b = true -> forall t', t <> dash :: t')
  /\ (forall t', t <> t' ++ [dash]).
Proof.
  revert b. induction t as [|r t IH]; intros b Hsq.
  - repeat split; intros; try discriminate; apply app_cons_not_nil.
  - simpl in Hsq. destruct (Z.eqb_spec r dash) as [->|Hr].
    + apply andb_true_iff in Hsq as [Hb Hsq].
      destruct b; [discriminate|].
      destruct (IH true Hsq) as (Hdd & Hlead & Htrail).
      assert (Hnil : t <> []) by (intros ->; discriminate).
      repeat split.
      * intros [|x pre] post Heq; injection Heq as Heq.
        -- exact (Hlead eq_refl _ Heq).
        -- subst x. exact (Hdd _ _ H).
      * discriminate.
      * intros [|x u] Heq; injection Heq as Heq.
        -- contradiction.
        -- exact (Htrail _ H).
    + destruct (IH false Hsq) as (Hdd & _ & Htrail).
      repeat split.
      * intros [|x pre] post Heq; injection Heq as Heq.
        -- contradiction.
        -- exact (Hdd _ _ H).
      * intros _ t' Heq. injection Heq as Heq. contradiction.
      * intros [|x u] Heq; injection Heq as Heq.
        -- contradiction.
        -- exact (Htrail _ H).
Qed.

(** *** The sanitizer as lower-casing, replacing, splitting and joining *)

Lemma sanitizeName_eq `{RT : GoRuntime} (s : gostring) :
  sanitizeName s
  = strings_Join
      (strings_FieldsFunc (List.map written (strings_ToLower s)) (fun r => r =? dash))
      [dash].
Proof.
  destruct s as [|r s]; [reflexivity|].
  unfold sanitizeName. rewrite str_dash, writeRunes_map. reflexivity.
Qed.

Lemma sanitizeName_shape `{RT : GoRuntime} (s : gostring) :
  exists fs,
    sanitizeName s = strings_Join fs [dash]
    /\ Forall isField fs
    /\ Forall (Forall (fun r => isAllowedRune allowedRunes r = true)) fs.
Proof.
  rewrite sanitizeName_eq. eexists. split; [reflexivity|]. split.
  - apply fieldsFrom_isField. constructor.
  - apply fieldsFrom_Forall; [constructor|].
    apply List.Forall_forall. intros r Hin. apply in_map_iff in Hin as (r0 & <- & _).
    apply written_allowed.
Qed.

Lemma sanitizeName_allowed `{RT : GoRuntime} (s : gostring) :
  Forall (fun r => isAllowedRune allowedRunes r = true) (sanitizeName s).
Proof.
  destruct (sanitizeName_shape s) as (fs & -> & _ & Hall).
  apply Join_Forall; [exact allowed_dash | exact Hall].
Qed.

Lemma clean_fixed `{RT : GoRuntime} (t : gostring) :
  Forall (fun r => isAllowedRune allowedRunes r = true) t ->
  List.map written (strings_ToLower t) = t.
Proof.
  unfold strings_ToLower. induction 1 as [|r t Hr Ht IH]; [reflexivity|].
  cbn [List.map]. rewrite IH, (ToLower_fixes_allowed r Hr), (written_fixes_allowed r Hr).
  reflexivity.
Qed.

(** C4. For every string [s], [sanitizeName s] consists of runes of
    [[a-z0-9-]] only, has no ["--"] inside, no [-] at either end, and
    neither ['0'] nor ['8']: it is the lower-cased input in which every
    rune outside the allow-list [a-z], [1-7], [9], [-] (so also ['0'] and
    ['8']) has been replaced by [-], then split at the runs of [-] and
    joined again with single [-]. *)
Theorem C4_sanitize_charset `{RT : GoRuntime} (s : gostring) :
  Forall (fun r => isLabelRune r = true) (sanitizeName s)
  /\ (forall pre post, sanitizeName s <> pre ++ str "--" ++ post)
  /\ (forall t, sanitizeName s <> str "-" ++ t)
  /\ (forall t, sanitizeName s <> t ++ str "-")
  /\ ~ In (rune_of "0"%char) (sanitizeName s)
  /\ ~ In (rune_of "8"%char) (sanitizeName s)
  /\ sanitizeName s
     = strings_Join
         (strings_FieldsFunc
            (List.map (fun r => if inAllowList r then r else rune_of "-"%char)
               (strings_ToLower s))
            (fun r => r =? rune_of "-"%char))
         (str "-").
Proof.
  pose proof (sanitizeName_allowed s) as Hall.
  assert (Hshape :
    (forall pre post, sanitizeName s <> pre ++ dash :: dash :: post)
    /\ (forall t, sanitizeName s <> dash :: t)
    /\ (forall t, sanitizeName s <> t ++ [dash])).
  { destruct (sanitizeName_shape s) as (fs & -> & Hfs & _).
    destruct fs as [|e rest].
    - repeat split; intros; try discriminate; apply app_cons_not_nil.
    - assert (Hsq : squeezed true (strings_Join (e :: rest) [dash]) = true)
        by (apply squeezed_Join; [exact Hfs | discriminate]).
      destruct (squeezed_sound _ _ Hsq) as (Hdd & Hlead & Htrail).
      repeat split; [exact Hdd | exact (Hlead eq_refl) | exact Htrail]. }
  destruct Hshape as (Hdd & Hlead & Htrail).
  split; [|split; [|split; [|split; [|split; [|split]]]]].
  - eapply List.Forall_impl; [|exact Hall]. exact allowed_isLabelRune.
  - intros pre post. exact (Hdd pre post).
  - intros t. exact (Hlead t).
  - intros t. exact (Htrail t).
  - intros Hin. rewrite List.Forall_forall in Hall.
    destruct (allowed_not_0_8 _ (Hall _ Hin)) as [H0 _]. now apply H0.
  - intros Hin. rewrite List.Forall_forall in Hall.
    destruct (allowed_not_0_8 _ (Hall _ Hin)) as [_ H8]. now apply H8.
  - rewrite sanitizeName_eq, str_dash. do 2 f_equal.
    apply map_ext. intros r. unfold written. now rewrite allowed_inAllowList.
Qed.

(** C5. The sanitizer is idempotent:
    [sanitizeName (sanitizeName s) = sanitizeName s] for every [s]. *)
Theorem C5_sanitize_idempotent `{RT : GoRuntime} (s : gostring) :
  sanitizeName (sanitizeName s) = sanitizeName s.
Proof.
  rewrite (sanitizeName_eq (sanitizeName s)).
  rewrite (clean_fixed _ (sanitizeName_allowed s)).
  destruct (sanitizeName_shape s) as (fs & -> & Hfs & _).
  now rewrite fields_Join.
Qed.

(* ===================================================================== *)
(** ** The snapshot builder *)
(* ===================================================================== *)

Section Builder.
Context `{RT : GoRuntime}.

Lemma addClient_Config (p : unifinames) (entry : unifi.Client) :
  Config (addClient p entry) = Config p.
Proof.
  unfold addClient.
  repeat match goal with
         | |- context [if ?b then _ else _] => destruct b
         | |- context [match ?o with Some _ => _ | None => _ end] => destruct o
         end; reflexivity.
Qed.

Lemma addClients_Config (clients : list unifi.Client) (p : unifinames) :
  Config (addClients p clients) = Config p.
Proof.
  revert p. induction clients as [|e rest IH]; intros p; [reflexivity|].
  cbn [addClients]. now rewrite IH, addClient_Config.
Qed.

Lemma addClients_app (l1 l2 : list unifi.Client) (p : unifinames) :
  addClients p (l1 ++ l2) = addClients (addClients p l1) l2.
Proof.
  revert p. induction l1 as [|e rest IH]; intros p; [reflexivity|].
  cbn [addClients app]. apply IH.
Qed.

(** A filtered entry takes one of the [continue] branches. *)
Lemma addClient_filteredOut (p q : unifinames) (entry : unifi.Client) :
  Config q = Config p -> filteredOut p entry -> addClient q entry = q.
Proof.
  intros Hc Hf. unfold filteredOut, selectedName in Hf. unfold addClient.
  rewrite Hc.
  set (selected := if UseNameAsHostname (Config p)
                   then unifi.Name entry else unifi.Hostname entry) in *.
  destruct Hf as [Hsel | [Hsan | [Hip | Hnet]]].
  - now rewrite Hsel.
  - rewrite Hsan. cbn [strings_ToLower List.map isEmpty].
    now destruct (isEmpty selected).
  - rewrite Hip.
    repeat match goal with
           | |- context [if ?b then _ else _] => destruct b
           end; reflexivity.
  - rewrite Hnet.
    repeat match goal with
           | |- context [if ?b then _ else _] => destruct b
           | |- context [match ?o with Some _ => _ | None => _ end] => destruct o
           end; reflexivity.
Qed.

Lemma getClients_yields (p : unifinames) (ctl : unifi.Controller)
  (clients : list unifi.Client) :
  fetchYields p ctl clients ->
  getClients p ctl
  = (addClients (set_aaaaClients (set_aClients p []) []) clients, None).
Proof.
  intros (uni & sites & Hctl & Hsites & Hclients).
  unfold getClients. now rewrite Hctl, Hsites, Hclients.
Qed.

Lemma getClients_fails (p : unifinames) (ctl : unifi.Controller) :
  fetchFails p ctl -> exists err, getClients p ctl = (p, Some err).
Proof.
  intros [(e & Hctl) | [(uni & e & Hctl & Hsites)
                       | (uni & sites & e & Hctl & Hsites & Hclients)]];
    unfold getClients; rewrite Hctl.
  - eauto.
  - rewrite Hsites. eauto.
  - rewrite Hsites, Hclients. eauto.
Qed.

End Builder.

(** C6. An upstream entry whose selected display name is empty, whose
    sanitized name is empty, whose IP does not parse, or whose network
    has no configured domain leaves no record in the built snapshot:
    the build of a listing that contains the entry is the build of the
    listing without it. *)
Theorem C6_filtered_entry_leaves_no_record `{RT : GoRuntime}
  (p : unifinames) (ctl ctl' : unifi.Controller)
  (before after : list unifi.Client) (entry : unifi.Client) :
  filteredOut p entry ->
  fetchYields p ctl (before ++ entry :: after) ->
  fetchYields p ctl' (before ++ after) ->
  getClients p ctl = getClients p ctl'.
Proof.
  intros Hf Hy Hy'.
  rewrite (getClients_yields _ _ _ Hy), (getClients_yields _ _ _ Hy').
  f_equal. rewrite !addClients_app. cbn [addClients]. f_equal.
  apply (addClient_filteredOut p); [|exact Hf].
  now rewrite addClients_Config.
Qed.

(** C7. When the upstream fetch fails (at the construction of the
    client, at the site listing or at the client listing), [getClients]
    returns an error and leaves the plugin, and so both cached record
    lists, as they were. *)
Theorem C7_failed_refresh_keeps_snapshot `{RT : GoRuntime}
  (p : unifinames) (ctl : unifi.Controller) :
  fetchFails p ctl ->
  exists err,
    snd (getClients p ctl) = Some err
    /\ aClients (fst (getClients p ctl)) = aClients p
    /\ aaaaClients (fst (getClients p ctl)) = aaaaClients p
    /\ fst (getClients p ctl) = p.
Proof.
  intros Hf. destruct (getClients_fails p ctl Hf) as (err & ->).
  exists err. repeat split.
Qed.

Lemma C6_filtered_entry_witness :
  let p := newPlugin (lanConfig (str "home.arpa.")) in
  filteredOut (RT := asciiRuntime) p printer
  /\ getClients (RT := asciiRuntime) p
       (controllerListing ([livingRoomTV []] ++ printer :: []))
     = getClients (RT := asciiRuntime) p
         (controllerListing ([livingRoomTV []] ++ [])).
Proof.
  split.
  - left. reflexivity.
  - apply (C6_filtered_entry_leaves_no_record (RT := asciiRuntime)
             (newPlugin (lanConfig (str "home.arpa.")))
             (controllerListing ([livingRoomTV []] ++ [printer]))
             (controllerListing ([livingRoomTV []] ++ []))
             [livingRoomTV []] [] printer).
    + left. reflexivity.
    + eexists _, _. repeat split.
    + eexists _, _. repeat split.
Defined.

Lemma C7_failed_refresh_witness :
  let p :=
    update (RT := asciiRuntime) (newPlugin (lanConfig (str "home.arpa.")))
      (controllerListing [livingRoomTV []]) 0 in
  fetchFails p controllerDown
  /\ exists err,
       snd (getClients (RT := asciiRuntime) p controllerDown) = Some err
       /\ aClients (fst (getClients (RT := asciiRuntime) p controllerDown))
          = aClients p
       /\ aaaaClients (fst (getClients (RT := asciiRuntime) p controllerDown))
          = aaaaClients p
       /\ fst (getClients (RT := asciiRuntime) p controllerDown) = p.
Proof.
  assert (Hf : fetchFails
                 (update (RT := asciiRuntime)
                    (newPlugin (lanConfig (str "home.arpa.")))
                    (controllerListing [livingRoomTV []]) 0)
                 controllerDown).
  { right. left. eexists _, _. split; reflexivity. }
  split; [exact Hf|].
  exact (C7_failed_refresh_keeps_snapshot (RT := asciiRuntime) _ _ Hf).
Defined.

(* ===================================================================== *)
(** ** The refresh paths and [lastUpdate] *)
(* ===================================================================== *)

Lemma update_failure `{RT : GoRuntime} (p : unifinames) (ctl : unifi.Controller)
  (now : time.Time) :
  fetchFails p ctl -> update p ctl now = p.
Proof.
  intros Hf. unfold update. now destruct (getClients_fails p ctl Hf) as (err & ->).
Qed.

Lemma update_success `{RT : GoRuntime} (p : unifinames) (ctl : unifi.Controller)
  (clients : list unifi.Client) (now : time.Time) :
  fetchYields p ctl clients ->
  update p ctl now
  = set_lastUpdate (addClients (set_aaaaClients (set_aClients p []) []) clients) now.
Proof.
  intros Hy. unfold update. now rewrite (getClients_yields _ _ _ Hy).
Qed.

Lemma Ready_success `{RT : GoRuntime} (p : unifinames) (ctl : unifi.Controller)
  (clients : list unifi.Client) (now : time.Time) :
  IsReady p = false -> fetchYields p ctl clients ->
  lastUpdate (fst (Ready p ctl now)) = now.
Proof.
  intros Hr Hy. unfold Ready. rewrite Hr, (getClients_yields _ _ _ Hy). reflexivity.
Qed.

(** C2. In the readiness path a failed refresh still moves [lastUpdate]:
    with the site listing failing, [getClients] returns an error, the
    goroutine's [update] leaves [lastUpdate] as it was, and [Ready] sets
    it to the current time. *)
Theorem C2_Ready_sets_lastUpdate_on_failure `{RT : GoRuntime}
  (p : unifinames) (now : time.Time) :
  let p0 := set_IsReady p false in
  (exists err, snd (getClients p0 controllerDown) = Some err)
  /\ lastUpdate (update p0 controllerDown now) = lastUpdate p0
  /\ lastUpdate (fst (Ready p0 controllerDown now)) = now.
Proof.
  cbn zeta. split; [|split].
  - eexists. reflexivity.
  - reflexivity.
  - reflexivity.
Qed.

(* ===================================================================== *)
(** ** The resolver *)
(* ===================================================================== *)

Section Resolver.
Context `{RT : GoRuntime}.

Lemma shouldHandle_true (p : unifinames) (name : gostring) :
  shouldHandle p name = true <->
  exists network domain,
    Networks (Config p) !! network = Some domain
    /\ strings_HasSuffix name domain = true.
Proof.
  unfold shouldHandle. rewrite existsb_exists. split.
  - intros ([network domain] & Hin & Hsuf).
    apply list_elem_of_In, elem_of_map_to_list in Hin. eauto.
  - intros (network & domain & Hlk & Hsuf).
    exists (network, domain). split; [|exact Hsuf].
    apply list_elem_of_In, elem_of_map_to_list. exact Hlk.
Qed.

Lemma shouldHandle_outside (p : unifinames) (name : gostring) :
  outsideServedSuffixes p name ->
  shouldHandle p (strings_ToLower name) = false.
Proof.
  intros Hout. destruct (shouldHandle p (strings_ToLower name)) eqn:E; [|reflexivity].
  apply shouldHandle_true in E as (network & domain & Hlk & Hsuf).
  rewrite (Hout _ _ Hlk) in Hsuf. discriminate.
Qed.

Lemma resolveQuestion_outside (p : unifinames) (q : dns.Question)
  (now : time.Time) (rrs : list dns.RR) :
  outsideServedSuffixes p (dns.QName q) ->
  resolveQuestion p q now rrs = (p, rrs).
Proof.
  intros Hout. unfold resolveQuestion.
  rewrite (shouldHandle_outside _ _ Hout).
  repeat match goal with
         | |- context [if ?b then _ else _] => destruct b
         end; reflexivity.
Qed.

Lemma resolveLoop_outside (qs : list dns.Question) (p : unifinames)
  (clock : nat -> time.Time) (i : nat) (rrs : list dns.RR) :
  (forall q, In q qs -> outsideServedSuffixes p (dns.QName q)) ->
  resolveLoop p qs clock i rrs = (p, rrs).
Proof.
  revert i. induction qs as [|q rest IH]; intros i Hout; [reflexivity|].
  cbn [resolveLoop]. rewrite resolveQuestion_outside by (apply Hout; now left).
  apply IH. intros q' Hin. apply Hout. now right.
Qed.

(** *** The scans leave the plugin as it is *)

Lemma scanA_plugin (p : unifinames) (clients : list dns.A) (name : gostring)
  (now : time.Time) (rrs : list dns.RR) :
  fst (scanA p clients name now rrs) = p.
Proof.
  induction clients as [|c rest IH]; [reflexivity|].
  cbn [scanA]. now destruct (strings_EqualFold _ _).
Qed.

Lemma scanAAAA_plugin (p : unifinames) (clients : list dns.AAAA) (name : gostring)
  (now : time.Time) (rrs : list dns.RR) :
  fst (scanAAAA p clients name now rrs) = p.
Proof.
  induction clients as [|c rest IH]; [reflexivity|].
  cbn [scanAAAA]. now destruct (strings_EqualFold _ _).
Qed.

Lemma resolveQuestion_plugin (p : unifinames) (q : dns.Question)
  (now : time.Time) (rrs : list dns.RR) :
  fst (resolveQuestion p q now rrs) = p.
Proof.
  unfold resolveQuestion.
  repeat match goal with
         | |- context [if ?b then _ else _] => destruct b
         end;
    auto using scanA_plugin, scanAAAA_plugin.
Qed.

Lemma resolveLoop_plugin (qs : list dns.Question) (p : unifinames)
  (clock : nat -> time.Time) (i : nat) (rrs : list dns.RR) :
  fst (resolveLoop p qs clock i rrs) = p.
Proof.
  revert i rrs. induction qs as [|q rest IH]; intros i rrs; [reflexivity|].
  cbn [resolveLoop].
  pose proof (resolveQuestion_plugin p q (clock i) rrs) as Hq.
  destruct (resolveQuestion p q (clock i) rrs) as [p' rrs']. cbn [fst] in Hq.
  subst p'. apply IH.
Qed.

Lemma resolve_plugin (p : unifinames) (r : dns.Msg) (clock : nat -> time.Time) :
  fst (fst (resolve p r clock)) = p.
Proof.
  unfold resolve. destruct (dns.Questions r) as [|q rest]; [reflexivity|].
  pose proof (resolveLoop_plugin (q :: rest) p clock 0 []) as Hl.
  destruct (resolveLoop p (q :: rest) clock 0 []) as [p' rrs].
  cbn [fst] in Hl. subst p'. now destruct rrs.
Qed.

End Resolver.

(** C8. A query none of whose question names, lower-cased, ends with a
    configured domain, and likewise a query with no question, is not
    answered, whatever the cache holds: [resolve] returns [false] and
    writes nothing. *)
Theorem C8_outside_suffixes_not_answered `{RT : GoRuntime}
  (p : unifinames) (r : dns.Msg) (clock : nat -> time.Time) :
  dns.Questions r = []
  \/ (forall q, In q (dns.Questions r) -> outsideServedSuffixes p (dns.QName q)) ->
  resolve p r clock = (p, false, None).
Proof.
  intros Hq. unfold resolve.
  destruct (dns.Questions r) as [|q rest] eqn:E; [reflexivity|].
  destruct Hq as [Hq|Hq]; [discriminate|].
  now rewrite (resolveLoop_outside (q :: rest) p clock 0 [] Hq).
Qed.

(** C9. Answering a query leaves the plugin as it is: after [resolve]
    the A and AAAA record lists, with every TTL in them, are the ones
    from before; the live TTL goes into the copy that is answered. *)
Theorem C9_resolve_keeps_snapshot `{RT : GoRuntime}
  (p : unifinames) (r : dns.Msg) (clock : nat -> time.Time) :
  aClients (fst (fst (resolve p r clock))) = aClients p
  /\ aaaaClients (fst (fst (resolve p r clock))) = aaaaClients p
  /\ fst (fst (resolve p r clock)) = p.
Proof.
  now rewrite resolve_plugin.
Qed.

Lemma C8_outside_suffixes_witness :
  let p :=
    update (RT := asciiRuntime) (newPlugin (lanConfig (str "home.arpa.")))
      (controllerListing [livingRoomTV []]) 0 in
  outsideServedSuffixes (RT := asciiRuntime) p (str "living-room-tv.example.org.")
  /\ resolve (RT := asciiRuntime) p
       (query (str "living-room-tv.example.org.") dns.TypeA) (fun _ => 0)
     = (p, false, None).
Proof.
  assert (Hout : outsideServedSuffixes (RT := asciiRuntime)
                   (update (RT := asciiRuntime)
                      (newPlugin (lanConfig (str "home.arpa.")))
                      (controllerListing [livingRoomTV []]) 0)
                   (str "living-room-tv.example.org.")).
  { intros network domain Hlk.
    change (({[ str "lan" := str "home.arpa." ]} : gmap (list Z) (list Z))
              !! network = Some domain) in Hlk.
    apply lookup_singleton_Some in Hlk as [_ <-]. reflexivity. }
  split; [exact Hout|].
  apply (C8_outside_suffixes_not_answered (RT := asciiRuntime)).
  right. intros q [<-|[]]. exact Hout.
Defined.

(* ===================================================================== *)
(** ** Answers and their TTL *)
(* ===================================================================== *)

Section Answers.
Context `{RT : GoRuntime}.

Lemma liveTtl_eq (p : unifinames) (now : time.Time) :
  liveTtl p now = (TTL (Config p) - elapsedSeconds p now) mod 2 ^ 32.
Proof. reflexivity. Qed.

Lemma elapsedSeconds_range (p : unifinames) (now : time.Time) :
  0 <= elapsedSeconds p now < 2 ^ 32.
Proof. unfold elapsedSeconds, uint32. apply Z.mod_pos_bound. lia. Qed.

(** Within the refresh interval the subtraction does not wrap. *)
Lemma liveTtl_fresh (p : unifinames) (now : time.Time) :
  0 <= TTL (Config p) < 2 ^ 32 ->
  elapsedSeconds p now <= TTL (Config p) ->
  liveTtl p now = TTL (Config p) - elapsedSeconds p now
  /\ liveTtl p now <= TTL (Config p).
Proof.
  intros Hrange Hle. pose proof (elapsedSeconds_range p now) as He.
  rewrite liveTtl_eq, Z.mod_small by lia. lia.
Qed.

Lemma scanA_first_match (q : unifinames) (clients : list dns.A) (name : gostring)
  (now : time.Time) (rrs : list dns.RR) :
  (exists c, In c clients
             /\ strings_EqualFold (dns.Name (dns.A_Hdr c)) name = true) ->
  exists before c after,
    clients = before ++ c :: after
    /\ strings_EqualFold (dns.Name (dns.A_Hdr c)) name = true
    /\ Forall (fun c' => strings_EqualFold (dns.Name (dns.A_Hdr c')) name = false)
         before
    /\ scanA q clients name now rrs
       = (q, rrs ++ [dns.RR_A (dns.mkA (dns.setTtl (dns.A_Hdr c) (liveTtl q now))
                                 (dns.A_A c))]).
Proof.
  induction clients as [|c0 rest IH]; intros (c & Hin & Heq); [destruct Hin|].
  cbn [scanA].
  destruct (strings_EqualFold (dns.Name (dns.A_Hdr c0)) name) eqn:E0.
  - exists [], c0, rest. repeat split; [exact E0 | constructor].
  - destruct Hin as [->|Hin]; [congruence|].
    destruct (IH (ex_intro _ c (conj Hin Heq)))
      as (before & c1 & after & -> & Hc1 & Hbefore & Hscan).
    exists (c0 :: before), c1, after.
    repeat split; [exact Hc1 | constructor; assumption | exact Hscan].
Qed.

Lemma scanAAAA_first_match (q : unifinames) (clients : list dns.AAAA)
  (name : gostring) (now : time.Time) (rrs : list dns.RR) :
  (exists c, In c clients
             /\ strings_EqualFold (dns.Name (dns.AAAA_Hdr c)) name = true) ->
  exists before c after,
    clients = before ++ c :: after
    /\ strings_EqualFold (dns.Name (dns.AAAA_Hdr c)) name = true
    /\ Forall (fun c' => strings_EqualFold (dns.Name (dns.AAAA_Hdr c')) name = false)
         before
    /\ scanAAAA q clients name now rrs
       = (q, rrs ++ [dns.RR_AAAA
                       (dns.mkAAAA (dns.setTtl (dns.AAAA_Hdr c) (liveTtl q now))
                          (dns.AAAA_AAAA c))]).
Proof.
  induction clients as [|c0 rest IH]; intros (c & Hin & Heq); [destruct Hin|].
  cbn [scanAAAA].
  destruct (strings_EqualFold (dns.Name (dns.AAAA_Hdr c0)) name) eqn:E0.
  - exists [], c0, rest. repeat split; [exact E0 | constructor].
  - destruct Hin as [->|Hin]; [congruence|].
    destruct (IH (ex_intro _ c (conj Hin Heq)))
      as (before & c1 & after & -> & Hc1 & Hbefore & Hscan).
    exists (c0 :: before), c1, after.
    repeat split; [exact Hc1 | constructor; assumption | exact Hscan].
Qed.

End Answers.

(** Where the conversion of the duration to seconds is exact, the
    seconds the code subtracts are the whole seconds since [lastUpdate]. *)
Lemma liveTtl_whole_seconds `{RT : GoRuntime} (p : unifinames) (now : time.Time) :
  0 <= now - lastUpdate p <= time.maxDuration ->
  Duration_Seconds_trunc (now - lastUpdate p) = wholeSecondsSince p now ->
  liveTtl p now = (TTL (Config p) - wholeSecondsSince p now mod 2 ^ 32) mod 2 ^ 32
  /\ (0 <= TTL (Config p) < 2 ^ 32 ->
      wholeSecondsSince p now <= TTL (Config p) ->
      liveTtl p now = TTL (Config p) - wholeSecondsSince p now
      /\ 0 <= liveTtl p now <= TTL (Config p)).
Proof.
  intros Hd Hexact.
  assert (Hsub : time.Sub now (lastUpdate p) = now - lastUpdate p).
  { unfold time.Sub, time.minDuration, time.maxDuration in *. lia. }
  assert (Hw : 0 <= wholeSecondsSince p now).
  { unfold wholeSecondsSince, time.Second. apply Z.div_pos; lia. }
  unfold liveTtl, uint32. rewrite Hsub, Hexact. split; [reflexivity|].
  intros Hrange Hle. rewrite (Z.mod_small (wholeSecondsSince p now)) by lia.
  rewrite Z.mod_small by lia. lia.
Qed.

(** C3 (as the code has it). For a question of class IN and type A or
    AAAA whose lower-cased name ends with a configured domain as stored
    and whose name is present in the record list of its type, the loop
    body adds exactly one answer, a copy of the first matching record.
    Its TTL is the configured TTL minus [uint32] of the seconds of
    [now - lastUpdate], in [uint32] arithmetic, that is modulo [2^32];
    when no more seconds have passed than the configured TTL, it is the
    plain difference and at most the configured TTL.  Where the
    conversion of the duration is exact, the seconds subtracted are the
    whole seconds [(now - lastUpdate) / 1s]. *)
Theorem C3_cached_name_one_answer `{RT : GoRuntime}
  (p : unifinames) (q : dns.Question) (now : time.Time) (rrs : list dns.RR) :
  dns.Qclass q = dns.ClassINET ->
  insideServedSuffix p (dns.QName q) ->
  cached p q ->
  exists rr,
    resolveQuestion p q now rrs = (p, rrs ++ [rr])
    /\ answerOf p q (dns.Ttl (dns.Header rr)) rr
    /\ dns.Ttl (dns.Header rr)
       = (TTL (Config p) - elapsedSeconds p now) mod 2 ^ 32
    /\ (0 <= TTL (Config p) < 2 ^ 32 ->
        elapsedSeconds p now <= TTL (Config p) ->
        dns.Ttl (dns.Header rr) = TTL (Config p) - elapsedSeconds p now
        /\ dns.Ttl (dns.Header rr) <= TTL (Config p))
    /\ (0 <= now - lastUpdate p <= time.maxDuration ->
        Duration_Seconds_trunc (now - lastUpdate p) = wholeSecondsSince p now ->
        dns.Ttl (dns.Header rr)
        = (TTL (Config p) - wholeSecondsSince p now mod 2 ^ 32) mod 2 ^ 32
        /\ (0 <= TTL (Config p) < 2 ^ 32 ->
            wholeSecondsSince p now <= TTL (Config p) ->
            dns.Ttl (dns.Header rr) = TTL (Config p) - wholeSecondsSince p now
            /\ 0 <= dns.Ttl (dns.Header rr) <= TTL (Config p))).
Proof.
  intros Hclass (network & domain & Hlk & Hsuf) Hcached.
  assert (Hsh : shouldHandle p (strings_ToLower (dns.QName q)) = true)
    by (apply shouldHandle_true; eauto).
  unfold resolveQuestion. rewrite Hclass, Z.eqb_refl, Hsh. cbn [negb].
  destruct Hcached as [[Hty Hex] | [Hty Hex]]; rewrite Hty.
  - rewrite Z.eqb_refl.
    destruct (scanA_first_match p (aClients p) (dns.QName q) now rrs Hex)
      as (before & c & after & Hsplit & Hc & Hbefore & ->).
    eexists. split; [reflexivity|]. cbn [dns.Header dns.A_Hdr dns.setTtl dns.Ttl].
    split; [|split; [apply liveTtl_eq
                    | split; [apply liveTtl_fresh | apply liveTtl_whole_seconds]]].
    cbn [answerOf]. split; [exact Hty|]. exists c. split; [|reflexivity].
    exists before, after. auto.
  - change (dns.TypeAAAA =? dns.TypeA) with false. rewrite Z.eqb_refl.
    destruct (scanAAAA_first_match p (aaaaClients p) (dns.QName q) now rrs Hex)
      as (before & c & after & Hsplit & Hc & Hbefore & ->).
    eexists. split; [reflexivity|]. cbn [dns.Header dns.AAAA_Hdr dns.setTtl dns.Ttl].
    split; [|split; [apply liveTtl_eq
                    | split; [apply liveTtl_fresh | apply liveTtl_whole_seconds]]].
    cbn [answerOf]. split; [exact Hty|]. exists c. split; [|reflexivity].
    exists before, after. auto.
Qed.

(** C3 as stated fails twice.  On a stale cache: 301 seconds after the
    refresh, with the configured TTL 300, the one answer carries the TTL
    4294967295, which is neither 300 - 301 nor at most 300.  On a domain
    stored with capitals: with ["lan"] published under ["Home.Arpa."]
    the name ["living-room-tv.home.arpa."] ends with the domain when
    case is ignored and is present in the A list, yet the question gets
    no answer, because only the name is lower-cased before the suffix
    test. *)
Lemma C3_fails_when_stale_or_domain_capitalised :
  (let p := refreshedOnce (str "home.arpa.") 0 in
   let now := 301 * time.Second in
   dns.Qclass tvQuestion = dns.ClassINET
   /\ insideServedSuffix (RT := asciiRuntime) p (dns.QName tvQuestion)
   /\ cached (RT := asciiRuntime) p tvQuestion
   /\ TTL (Config p) = 300
   /\ wholeSecondsSince p now = 301
   /\ elapsedSeconds (RT := asciiRuntime) p now = 301
   /\ exists rr,
        resolveQuestion (RT := asciiRuntime) p tvQuestion now [] = (p, [rr])
        /\ dns.Ttl (dns.Header rr) = 4294967295
        /\ ~ dns.Ttl (dns.Header rr) <= TTL (Config p)
        /\ dns.Ttl (dns.Header rr)
           <> TTL (Config p) - elapsedSeconds (RT := asciiRuntime) p now)
  /\ (let p := refreshedOnce (str "Home.Arpa.") 0 in
      let now := 100 * time.Second in
      dns.Qclass tvQuestion = dns.ClassINET
      /\ dns.Qtype tvQuestion = dns.TypeA
      /\ Networks (Config p) !! str "lan" = Some (str "Home.Arpa.")
      /\ endsWithFold (RT := asciiRuntime) (dns.QName tvQuestion)
           (str "Home.Arpa.")
      /\ cached (RT := asciiRuntime) p tvQuestion
      /\ resolveQuestion (RT := asciiRuntime) p tvQuestion now [] = (p, [])
      /\ resolve (RT := asciiRuntime) p
           (query (str "living-room-tv.home.arpa.") dns.TypeA) (fun _ => now)
         = (p, false, None)).
Proof.
  split; cbn zeta.
  - split; [reflexivity|]. split; [|split; [|split; [|split; [|split]]]].
    + exists (str "lan"), (str "home.arpa."). split; vm_compute; reflexivity.
    + left. split; [reflexivity|].
      exists (tvRecord (str "home.arpa.") 0).
      split; [left|]; vm_compute; reflexivity.
    + reflexivity.
    + vm_compute. reflexivity.
    + vm_compute. reflexivity.
    + exists (dns.RR_A (tvRecord (str "home.arpa.") 4294967295)).
      split; [vm_compute; reflexivity|].
      split; [reflexivity|]. split; vm_compute; congruence.
  - split; [reflexivity|]. split; [reflexivity|].
    split; [vm_compute; reflexivity|]. split; [|split; [|split]].
    + exists (str "living-room-tv."), (str "home.arpa.").
      split; vm_compute; reflexivity.
    + left. split; [reflexivity|].
      exists (tvRecord (str "Home.Arpa.") 0).
      split; [left|]; vm_compute; reflexivity.
    + vm_compute. reflexivity.
    + vm_compute. reflexivity.
Qed.

Lemma C3_cached_name_witness :
  let p := refreshedOnce (str "home.arpa.") 0 in
  let now := 100 * time.Second in
  exists rr,
    resolveQuestion (RT := asciiRuntime) p tvQuestion now [] = (p, [] ++ [rr])
    /\ answerOf (RT := asciiRuntime) p tvQuestion (dns.Ttl (dns.Header rr)) rr
    /\ dns.Ttl (dns.Header rr)
       = (TTL (Config p) - elapsedSeconds (RT := asciiRuntime) p now) mod 2 ^ 32
    /\ (0 <= TTL (Config p) < 2 ^ 32 ->
        elapsedSeconds (RT := asciiRuntime) p now <= TTL (Config p) ->
        dns.Ttl (dns.Header rr)
        = TTL (Config p) - elapsedSeconds (RT := asciiRuntime) p now
        /\ dns.Ttl (dns.Header rr) <= TTL (Config p))
    /\ (0 <= now - lastUpdate p <= time.maxDuration ->
        Duration_Seconds_trunc (GoRuntime := asciiRuntime) (now - lastUpdate p)
        = wholeSecondsSince p now ->
        dns.Ttl (dns.Header rr)
        = (TTL (Config p) - wholeSecondsSince p now mod 2 ^ 32) mod 2 ^ 32
        /\ (0 <= TTL (Config p) < 2 ^ 32 ->
            wholeSecondsSince p now <= TTL (Config p) ->
            dns.Ttl (dns.Header rr) = TTL (Config p) - wholeSecondsSince p now
            /\ 0 <= dns.Ttl (dns.Header rr) <= TTL (Config p)))
    /\ dns.Ttl (dns.Header rr) = 200.
Proof.
  cbn zeta.
  destruct (C3_cached_name_one_answer (RT := asciiRuntime)
              (refreshedOnce (str "home.arpa.") 0) tvQuestion
              (100 * time.Second) [])
    as (rr & Hres & Hans & Httl & Hfresh & Hwhole).
  - reflexivity.
  - exists (str "lan"), (str "home.arpa."). split; vm_compute; reflexivity.
  - left. split; [reflexivity|].
    exists (tvRecord (str "home.arpa.") 0). split; [left|]; vm_compute; reflexivity.
  - exists rr. split; [exact Hres|]. split; [exact Hans|]. split; [exact Httl|].
    split; [exact Hfresh|]. split; [exact Hwhole|].
    destruct Hwhole as [_ Hplain];
      [vm_compute; split; discriminate | reflexivity |].
    destruct Hplain as [Heq _];
      [vm_compute; split; [discriminate | reflexivity]
      | vm_compute; discriminate |].
    rewrite Heq. reflexivity.
Defined.

(* ===================================================================== *)
(** ** The television scenario *)
(* ===================================================================== *)

(** C1 as stated fails: with the domain configured as ["home.arpa"] the
    record is stored under ["living-room-tv.home.arpa"], the name
    ["living-room-tv.home.arpa."] ends with no configured domain, and
    the query is not answered. *)
Lemma C1_unrooted_domain_not_answered :
  let p := refreshedOnce (str "home.arpa") 0 in
  aClients p = [tvRecord (str "home.arpa") 0]
  /\ shouldHandle p (str "living-room-tv.home.arpa.") = false
  /\ resolve (RT := asciiRuntime) p
       (query (str "living-room-tv.home.arpa.") dns.TypeA)
       (fun _ => 5 * time.Second)
     = (p, false, None).
Proof. cbn zeta. repeat split; vm_compute; reflexivity. Qed.

Lemma addClient_livingRoomTV `{RT : GoRuntime} (q : unifinames) (name domain : gostring) :
  Config q = lanConfig domain ->
  dns_val_IsFQDN (str "living-room-tv") = false ->
  net_ParseIP (str "192.168.1.20") = Some addr_192_168_1_20 ->
  addClient q (livingRoomTV name)
  = set_aClients q (aClients q ++ [tvRecord domain 0]).
Proof.
  intros Hc Hfqdn Hip. unfold addClient. rewrite Hc.
  cbn [UseNameAsHostname lanConfig livingRoomTV unifi.Hostname unifi.IP
       unifi.Network Networks].
  replace (strings_ToLower (sanitizeName (str "Living Room TV")))
    with (str "living-room-tv") by (vm_compute; reflexivity).
  replace (strings_ToLower (str "lan")) with (str "lan") by (vm_compute; reflexivity).
  rewrite Hfqdn, Hip, lookup_singleton_eq. reflexivity.
Qed.

(** C1 (as the code has it). Network ["lan"] is published under
    ["home.arpa."], TTL 300, names come from the [hostname] field, the
    upstream lists the one client with hostname ["Living Room TV"], IP
    ["192.168.1.20"] and network ["lan"].  After one successful refresh
    the A list holds the one record ["living-room-tv.home.arpa."], and a
    type-A query for that name is answered with exactly one A record,
    carrying the address 192.168.1.20. *)
Theorem C1_living_room_tv_answered `{RT : GoRuntime}
  (p0 : unifinames) (ctl : unifi.Controller) (name : gostring)
  (t0 : time.Time) (clock : nat -> time.Time) :
  Config p0 = lanConfig (str "home.arpa.") ->
  fetchYields p0 ctl [livingRoomTV name] ->
  dns_val_IsFQDN (str "living-room-tv") = false ->
  net_ParseIP (str "192.168.1.20") = Some addr_192_168_1_20 ->
  aClients (update p0 ctl t0) = [tvRecord (str "home.arpa.") 0]
  /\ exists m,
       resolve (update p0 ctl t0)
         (query (str "living-room-tv.home.arpa.") dns.TypeA) clock
       = (update p0 ctl t0, true, Some m)
       /\ dns.Answer m
          = [dns.RR_A (tvRecord (str "home.arpa.")
                         (liveTtl (update p0 ctl t0) (clock 0%nat)))].
Proof.
  intros Hc Hy Hfqdn Hip.
  assert (Hp : update p0 ctl t0
               = set_lastUpdate
                   (set_aClients (set_aaaaClients (set_aClients p0 []) [])
                      [tvRecord (str "home.arpa.") 0]) t0).
  { rewrite (update_success _ _ _ _ Hy). cbn [addClients].
    rewrite (addClient_livingRoomTV _ name (str "home.arpa.")) by assumption.
    reflexivity. }
  assert (Ha : aClients (update p0 ctl t0) = [tvRecord (str "home.arpa.") 0])
    by (rewrite Hp; reflexivity).
  assert (Hcfg : Config (update p0 ctl t0) = lanConfig (str "home.arpa."))
    by (rewrite Hp; exact Hc).
  clear Hp. set (p := update p0 ctl t0) in *.
  assert (Hsh : shouldHandle p (strings_ToLower (str "living-room-tv.home.arpa."))
                = true).
  { apply shouldHandle_true. exists (str "lan"), (str "home.arpa."). rewrite Hcfg.
    split; [apply lookup_singleton_eq | vm_compute; reflexivity]. }
  assert (HE : strings_EqualFold (str "living-room-tv." ++ str "home.arpa.")
                 (str "living-room-tv.home.arpa.") = true)
    by (vm_compute; reflexivity).
  split; [exact Ha|].
  unfold resolve, query. cbn [dns.Questions resolveLoop].
  unfold resolveQuestion. cbn [dns.Qclass dns.Qtype dns.QName].
  rewrite Hsh, Ha, !Z.eqb_refl.
  cbn [negb scanA tvRecord dns.A_Hdr dns.Name]. rewrite HE.
  cbn [app dns.setTtl dns.A_A dns.Name dns.Rrtype dns.Class dns.Rdlength].
  eexists. split; reflexivity.
Qed.

Lemma C1_living_room_tv_witness :
  let p := refreshedOnce (str "home.arpa.") 0 in
  let clock := fun _ : nat => 5 * time.Second in
  aClients p = [tvRecord (str "home.arpa.") 0]
  /\ exists m,
       resolve (RT := asciiRuntime) p
         (query (str "living-room-tv.home.arpa.") dns.TypeA) clock
       = (p, true, Some m)
       /\ dns.Answer m
          = [dns.RR_A (tvRecord (str "home.arpa.")
                         (liveTtl (RT := asciiRuntime) p (clock 0%nat)))].
Proof.
  apply (C1_living_room_tv_answered (RT := asciiRuntime)
           (newPlugin (lanConfig (str "home.arpa.")))
           (controllerListing [livingRoomTV []]) [] 0
           (fun _ : nat => 5 * time.Second)).
  - reflexivity.
  - eexists _, _. repeat split.
  - reflexivity.
  - reflexivity.
Defined.

(* ===================================================================== *)
(** ** Starting the refresh goroutine *)
(* ===================================================================== *)

(** A handler that runs the guard alone does what [ServeDNS] does when
    run to completion: it starts the goroutine exactly when the flag
    was not set, and leaves the flag set. *)
Lemma Guard_alone_agrees `{RT : GoRuntime}
  (p : unifinames) (r : dns.Msg) (clock : nat -> time.Time) :
  exists g,
    Guard.run (Guard.mkState (haveRoutine p) 0 [Guard.AtLoad])
      (if haveRoutine p then [0%nat] else [0%nat; 0%nat; 0%nat]) = Some g
    /\ Guard.handlers g = [Guard.PastGuard]
    /\ Guard.flag g = haveRoutine (fst (fst (ServeDNS p r clock)))
    /\ Guard.goroutines g
       = (if snd (fst (ServeDNS p r clock)) then 1%nat else 0%nat).
Proof.
  unfold ServeDNS.
  destruct (haveRoutine p) eqn:Hflag; cbn [negb];
    eexists; (split; [reflexivity|]); (split; [reflexivity|]);
    match goal with
    | |- context [resolve ?q r clock] =>
        pose proof (resolve_plugin q r clock) as Hres;
        destruct (resolve q r clock) as [[p' ans] out]
    end;
    cbn [fst] in Hres; subst p';
    destruct ans, out; cbn; auto.
Qed.

(** Handlers that run one after the other start one goroutine. *)
Lemma Guard_one_after_the_other :
  exists g,
    Guard.run (Guard.fresh 2) [0; 0; 0; 1]%nat = Some g
    /\ Guard.goroutines g = 1%nat
    /\ Guard.handlers g = [Guard.PastGuard; Guard.PastGuard].
Proof. eexists. repeat split. Qed.

(** C10. Two first queries that both load [haveRoutine] before either
    stores it both find it unset, and each starts a refresh goroutine:
    the schedule load, load, store, go, store, go ends with two
    goroutines. *)
Theorem C10_two_first_queries_two_goroutines :
  exists g,
    Guard.run (Guard.fresh 2) [0; 1; 0; 0; 1; 1]%nat = Some g
    /\ Guard.goroutines g = 2%nat
    /\ Guard.flag g = true
    /\ Guard.handlers g = [Guard.PastGuard; Guard.PastGuard].
Proof. eexists. repeat split. Qed.

(* ===================================================================== *)
(** ** Further properties of the sanitizer *)
(* ===================================================================== *)

Lemma Join_nil_inv (fs : list gostring) :
  Forall isField fs -> strings_Join fs [dash] = [] -> fs = [].
Proof.
  destruct fs as [|e rest]; [reflexivity|].
  intros Hfs Hnil. inversion Hfs as [|? ? [Hne _] _]; subst.
  destruct rest as [|e2 rest]; cbn [strings_Join] in Hnil.
  - contradiction.
  - destruct e; [contradiction | discriminate].
Qed.

Lemma fieldsFrom_nil_iff (s cur : list rune) :
  fieldsFrom (fun r => r =? dash) cur s = []
  <-> cur = [] /\ Forall (fun r => r = dash) s.
Proof.
  revert cur. induction s as [|r s IH]; intros cur; cbn [fieldsFrom].
  - destruct cur; split; try (intros [? ?]); try discriminate; auto.
  - destruct (Z.eqb_spec r dash) as [->|Hne].
    + destruct cur as [|c cur].
      * rewrite IH. split; intros [_ Hs]; split; auto.
        now inversion Hs.
      * split; [discriminate | intros [? _]; discriminate].
    + rewrite IH. split; [intros [? _]; discriminate|].
      intros [_ Hs]. inversion Hs. contradiction.
Qed.

Lemma written_dash_iff (r : rune) :
  written r = dash <-> inAllowList r = false \/ r = rune_of "-"%char.
Proof.
  unfold written. rewrite allowed_inAllowList.
  destruct (inAllowList r); split; auto.
  - intros [?|?]; [discriminate | assumption].
Qed.

Lemma cleanLabel_of_squeezed (t : gostring) :
  Forall (fun r => isAllowedRune allowedRunes r = true) t ->
  t = [] \/ squeezed true t = true ->
  cleanLabel t.
Proof.
  intros Hall [->|Hsq].
  - split; [constructor|].
    repeat split; intros; try discriminate; apply app_cons_not_nil.
  - destruct (squeezed_sound _ _ Hsq) as (Hdd & Hlead & Htrail).
    split; [exact Hall|]. repeat split.
    + intros pre post. exact (Hdd pre post).
    + intros u. exact (Hlead eq_refl u).
    + intros u. exact (Htrail u).
Qed.

Lemma squeezed_complete (t : gostring) (b : bool) :
  (forall pre post, t <> pre ++ dash :: dash :: post) ->
  (b = true -> forall u, t <> dash :: u) ->
  (forall u, t <> u ++ [dash]) ->
  t <> [] \/ b = false ->
  squeezed b t = true.
Proof.
  revert b. induction t as [|r t IH]; intros b Hdd Hlead Htrail Hne.
  - destruct Hne as [Hne | ->]; [contradiction | reflexivity].
  - cbn [squeezed]. destruct (Z.eqb_spec r dash) as [->|Hr].
    + destruct b; [exfalso; exact (Hlead eq_refl t eq_refl)|].
      cbn [negb andb]. apply IH.
      * intros pre post Heq. apply (Hdd (dash :: pre) post). now rewrite Heq.
      * intros _ u Heq. apply (Hdd [] u). now rewrite Heq.
      * intros u Heq. apply (Htrail (dash :: u)). now rewrite Heq.
      * left. intros ->. exact (Htrail [] eq_refl).
    + apply IH.
      * intros pre post Heq. apply (Hdd (r :: pre) post). now rewrite Heq.
      * discriminate.
      * intros u Heq. apply (Htrail (r :: u)). now rewrite Heq.
      * now right.
Qed.

(** Splitting a string in normal form and joining the fields gives the
    string back. *)
Lemma Join_fields_squeezed (t cur : list rune) :
  squeezed (isEmpty cur) t = true ->
  strings_Join (fieldsFrom (fun r => r =? dash) cur t) [dash] = rev cur ++ t.
Proof.
  revert cur. induction t as [|r t IH]; intros cur Hsq.
  - cbn [fieldsFrom]. destruct cur; [discriminate|].
    cbn [strings_Join]. now rewrite app_nil_r.
  - cbn [squeezed] in Hsq. cbn [fieldsFrom].
    destruct (Z.eqb_spec r dash) as [->|Hr].
    + apply andb_true_iff in Hsq as [Hcur Hsq].
      destruct cur as [|c cur]; [discriminate|].
      pose proof (IH [] Hsq) as Ht. cbn [rev app] in Ht.
      destruct (fieldsFrom (fun r => r =? dash) [] t) as [|e rest] eqn:Ef.
      * cbn [strings_Join] in Ht. subst t. discriminate.
      * change (strings_Join (rev (c :: cur) :: e :: rest) [dash])
          with (rev (c :: cur) ++ dash :: strings_Join (e :: rest) [dash]).
        now rewrite Ht.
    + cbv iota. etransitivity; [exact (IH (r :: cur) Hsq)|].
      cbn [rev]. now rewrite <- app_assoc.
Qed.

(** X1. [sanitizeName] returns the empty string exactly for the inputs
    with no usable rune: every rune, lower-cased, is outside the
    allow-list or is [-]. *)
Theorem X1_sanitize_empty_iff `{RT : GoRuntime} (s : gostring) :
  sanitizeName s = []
  <-> Forall (fun r => inAllowList (unicode_ToLower r) = false
                       \/ unicode_ToLower r = rune_of "-"%char) s.
Proof.
  rewrite sanitizeName_eq. unfold strings_FieldsFunc, strings_ToLower.
  split.
  - intros Hnil. apply Join_nil_inv in Hnil; [|apply fieldsFrom_isField; constructor].
    apply fieldsFrom_nil_iff in Hnil as [_ Hall].
    rewrite List.Forall_forall in Hall. apply List.Forall_forall. intros r Hin.
    apply written_dash_iff, Hall, in_map, in_map, Hin.
  - intros Hall.
    replace (fieldsFrom _ [] _) with (@nil gostring); [reflexivity|].
    symmetry. apply fieldsFrom_nil_iff. split; [reflexivity|].
    apply List.Forall_forall. intros x Hin.
    apply in_map_iff in Hin as (y & <- & Hin).
    apply in_map_iff in Hin as (r & <- & Hin).
    rewrite List.Forall_forall in Hall. apply written_dash_iff, Hall, Hin.
Qed.

(** X2. The strings that [sanitizeName] returns unchanged are exactly
    the labels in normal form: allowed runes only, no [-] at either end,
    no ["--"]. *)
Theorem X2_sanitize_fixed_points `{RT : GoRuntime} (t : gostring) :
  sanitizeName t = t <-> cleanLabel t.
Proof.
  split.
  - intros Hfix. rewrite <- Hfix.
    destruct (sanitizeName_shape t) as (fs & Heq & Hfs & Hall).
    apply cleanLabel_of_squeezed.
    + apply sanitizeName_allowed.
    + rewrite Heq. destruct fs as [|e rest]; [now left | right].
      apply squeezed_Join; [exact Hfs | discriminate].
  - intros (Hall & Hdd & Hlead & Htrail).
    rewrite sanitizeName_eq, (clean_fixed _ Hall).
    destruct t as [|r t]; [reflexivity|].
    unfold strings_FieldsFunc.
    rewrite Join_fields_squeezed; [reflexivity|].
    apply squeezed_complete.
    + intros pre post. exact (Hdd pre post).
    + intros _ u. exact (Hlead u).
    + intros u. exact (Htrail u).
    + now left.
Qed.

Lemma ToLower_sanitizeName `{RT : GoRuntime} (s : gostring) :
  strings_ToLower (sanitizeName s) = sanitizeName s.
Proof.
  pose proof (sanitizeName_allowed s) as Hall. unfold strings_ToLower.
  induction Hall as [|r t Hr _ IH]; [reflexivity|].
  cbn [List.map]. now rewrite IH, (ToLower_fixes_allowed r Hr).
Qed.

(** X3. The result of [sanitizeName] is already lower-case: the
    [strings.ToLower] that [getClients] applies to it changes nothing. *)
Theorem X3_sanitize_result_lower_case `{RT : GoRuntime} (s : gostring) :
  strings_ToLower (sanitizeName s) = sanitizeName s.
Proof. exact (ToLower_sanitizeName s). Qed.

Lemma Join_fields_length (f : rune -> bool) (s cur : list rune) :
  (length (strings_Join (fieldsFrom f cur s) [dash]) <= length cur + length s)%nat.
Proof.
  revert cur. induction s as [|r s IH]; intros cur; cbn [fieldsFrom].
  - destruct cur; cbn [strings_Join length]; [lia|].
    rewrite length_rev. cbn [length]. lia.
  - destruct (f r).
    + destruct cur as [|c cur].
      * specialize (IH []). cbn [length] in *. lia.
      * specialize (IH []).
        destruct (fieldsFrom f [] s) as [|e rest].
        -- cbn [strings_Join]. rewrite length_rev. cbn [length]. lia.
        -- change (strings_Join (rev (c :: cur) :: e :: rest) [dash])
             with (rev (c :: cur) ++ dash :: strings_Join (e :: rest) [dash]).
           rewrite length_app, length_rev. cbn [length] in *. unfold rune in *. lia.
    + specialize (IH (r :: cur)). cbn [length] in *. unfold rune in *. lia.
Qed.

(** X4. [sanitizeName] never lengthens its input (lengths in runes). *)
Theorem X4_sanitize_not_longer `{RT : GoRuntime} (s : gostring) :
  (length (sanitizeName s) <= length s)%nat.
Proof.
  rewrite sanitizeName_eq. unfold strings_FieldsFunc, strings_ToLower.
  pose proof (Join_fields_length (fun r => r =? dash)
                (List.map written (List.map unicode_ToLower s)) []) as H.
  rewrite !length_map in H. exact H.
Qed.

(** X5. [isAllowedRune] is the membership test of its list. *)
Theorem X5_isAllowedRune_membership (allowed : list rune) (r : rune) :
  isAllowedRune allowed r = true <-> In r allowed.
Proof. exact (isAllowedRune_In allowed r). Qed.

(* ===================================================================== *)
(** ** Further properties of the snapshot builder *)
(* ===================================================================== *)

Section BuilderMore.
Context `{RT : GoRuntime}.

Lemma isEmpty_true (s : gostring) : isEmpty s = true <-> s = [].
Proof. destruct s; split; auto; discriminate. Qed.

Lemma isEmpty_false (s : gostring) : isEmpty s = false <-> s <> [].
Proof. destruct s; split; auto; try discriminate. intros H. now contradiction H. Qed.

(** What the loop body does with an entry: it skips it, or appends one
    record to exactly one of the two lists. *)
Lemma addClient_spec (q : unifinames) (entry : unifi.Client) :
  (addClient q entry = q
   /\ (filteredOut q entry
       \/ dns_val_IsFQDN (sanitizeName (selectedName q entry)) = true))
  \/ (exists h ip,
        recordOf q entry h ip dns.TypeA /\ net.To4 ip <> None
        /\ addClient q entry = set_aClients q (aClients q ++ [dns.mkA h ip]))
  \/ (exists h ip,
        recordOf q entry h ip dns.TypeAAAA /\ net.To4 ip = None
        /\ addClient q entry
           = set_aaaaClients q (aaaaClients q ++ [dns.mkAAAA h ip])).
Proof.
  unfold addClient, filteredOut, recordOf.
  fold (selectedName q entry). rewrite ToLower_sanitizeName.
  destruct (isEmpty (selectedName q entry)) eqn:Esel.
  { left. split; [reflexivity|]. left. left. now apply isEmpty_true. }
  destruct (isEmpty (sanitizeName (selectedName q entry))) eqn:Esan.
  { left. split; [reflexivity|]. left. right. left. now apply isEmpty_true. }
  destruct (dns_val_IsFQDN (sanitizeName (selectedName q entry))) eqn:Efq.
  { left. split; [reflexivity|]. now right. }
  destruct (net_ParseIP (unifi.IP entry)) as [ip|] eqn:Eip.
  2:{ left. split; [reflexivity|]. left. right. right. now left. }
  destruct (Networks (Config q) !! strings_ToLower (unifi.Network entry))
    as [domain|] eqn:Enet.
  2:{ left. split; [reflexivity|]. left. right. right. now right. }
  apply isEmpty_false in Esel, Esan.
  destruct (net.To4 ip) as [ip4|] eqn:E4.
  - right. left. eexists _, ip. split; [|split; [congruence | reflexivity]].
    repeat split; try assumption. exists domain. split; reflexivity.
  - right. right. eexists _, ip. split; [|split; [assumption | reflexivity]].
    repeat split; try assumption. exists domain. split; reflexivity.
Qed.

Lemma recordOf_Config (p q : unifinames) (entry : unifi.Client)
  (h : dns.RR_Header) (ip : net_IP) (rrtype : Z) :
  Config q = Config p -> recordOf q entry h ip rrtype -> recordOf p entry h ip rrtype.
Proof. unfold recordOf, selectedName. now intros ->. Qed.

Lemma filteredOut_Config (p q : unifinames) (entry : unifi.Client) :
  Config q = Config p -> filteredOut q entry -> filteredOut p entry.
Proof. unfold filteredOut, selectedName. now intros ->. Qed.

(** The fields that the loop never writes. *)
Lemma addClient_frame (q : unifinames) (entry : unifi.Client) :
  Config (addClient q entry) = Config q
  /\ lastUpdate (addClient q entry) = lastUpdate q
  /\ IsReady (addClient q entry) = IsReady q
  /\ haveRoutine (addClient q entry) = haveRoutine q.
Proof.
  destruct (addClient_spec q entry)
    as [[-> _] | [(h & ip & _ & _ & ->) | (h & ip & _ & _ & ->)]];
    repeat split.
Qed.

Lemma addClients_frame (clients : list unifi.Client) (q : unifinames) :
  Config (addClients q clients) = Config q
  /\ lastUpdate (addClients q clients) = lastUpdate q
  /\ IsReady (addClients q clients) = IsReady q
  /\ haveRoutine (addClients q clients) = haveRoutine q.
Proof.
  revert q. induction clients as [|e rest IH]; intros q; [repeat split|].
  cbn [addClients]. destruct (IH (addClient q e)) as (-> & -> & -> & ->).
  apply addClient_frame.
Qed.

(** Records once appended stay, in their order. *)
Lemma addClients_extends (clients : list unifi.Client) (q : unifinames) :
  exists newA newAAAA,
    aClients (addClients q clients) = aClients q ++ newA
    /\ aaaaClients (addClients q clients) = aaaaClients q ++ newAAAA
    /\ (length newA + length newAAAA <= length clients)%nat.
Proof.
  revert q. induction clients as [|e rest IH]; intros q.
  - exists [], []. cbn. now rewrite !app_nil_r.
  - cbn [addClients].
    destruct (IH (addClient q e)) as (nA & nAAAA & -> & -> & Hlen).
    destruct (addClient_spec q e)
      as [[-> _] | [(h & ip & _ & _ & ->) | (h & ip & _ & _ & ->)]].
    + exists nA, nAAAA. cbn [length]. repeat split. lia.
    + exists (dns.mkA h ip :: nA), nAAAA.
      cbn [set_aClients aClients aaaaClients length].
      rewrite <- app_assoc. repeat split. lia.
    + exists nA, (dns.mkAAAA h ip :: nAAAA).
      cbn [set_aaaaClients aClients aaaaClients length].
      rewrite <- app_assoc. repeat split. lia.
Qed.

(** Every record of the lists stems from a kept entry. *)
Lemma addClients_sound (p : unifinames) (all clients : list unifi.Client)
  (q : unifinames) (IA : dns.A -> Prop) (IAAAA : dns.AAAA -> Prop) :
  (forall entry h ip,
      In entry all -> recordOf p entry h ip dns.TypeA -> net.To4 ip <> None ->
      IA (dns.mkA h ip)) ->
  (forall entry h ip,
      In entry all -> recordOf p entry h ip dns.TypeAAAA -> net.To4 ip = None ->
      IAAAA (dns.mkAAAA h ip)) ->
  incl clients all -> Config q = Config p ->
  Forall IA (aClients q) -> Forall IAAAA (aaaaClients q) ->
  Forall IA (aClients (addClients q clients))
  /\ Forall IAAAA (aaaaClients (addClients q clients)).
Proof.
  intros HA HAAAA. revert q.
  induction clients as [|e rest IH]; intros q Hincl Hc Hq4 Hq6; [now split|].
  cbn [addClients].
  assert (Hin : In e all) by (apply Hincl; now left).
  assert (Hrest : incl rest all) by (intros x Hx; apply Hincl; now right).
  destruct (addClient_spec q e)
    as [[-> _] | [(h & ip & Hrec & H4 & ->) | (h & ip & Hrec & H4 & ->)]].
  - now apply IH.
  - apply IH; try assumption. cbn [set_aClients aClients].
    apply Forall_app. split; [exact Hq4|]. constructor; [|constructor].
    eapply HA; [exact Hin | | exact H4]. eapply recordOf_Config; eassumption.
  - apply IH; try assumption. cbn [set_aaaaClients aaaaClients].
    apply Forall_app. split; [exact Hq6|]. constructor; [|constructor].
    eapply HAAAA; [exact Hin | | exact H4]. eapply recordOf_Config; eassumption.
Qed.

(** Two plugins with the same configuration gain the same records. *)
Lemma addClients_same_lists (clients : list unifi.Client) (q q' : unifinames) :
  Config q = Config q' ->
  aClients q = aClients q' -> aaaaClients q = aaaaClients q' ->
  aClients (addClients q clients) = aClients (addClients q' clients)
  /\ aaaaClients (addClients q clients) = aaaaClients (addClients q' clients).
Proof.
  revert q q'. induction clients as [|e rest IH]; intros q q' Hc H4 H6; [now split|].
  cbn [addClients]. apply IH.
  - destruct (addClient_frame q e) as (-> & _), (addClient_frame q' e) as (-> & _).
    exact Hc.
  - unfold addClient. rewrite Hc, H4.
    repeat match goal with
           | |- context [if ?b then _ else _] => destruct b
           | |- context [match ?o with Some _ => _ | None => _ end] => destruct o
           end; cbn [set_aClients set_aaaaClients aClients]; congruence.
  - unfold addClient. rewrite Hc, H6.
    repeat match goal with
           | |- context [if ?b then _ else _] => destruct b
           | |- context [match ?o with Some _ => _ | None => _ end] => destruct o
           end; cbn [set_aClients set_aaaaClients aaaaClients]; congruence.
Qed.

End BuilderMore.

(** X6. After a successful [getClients] every record of the A list was
    built from a listed entry that passed the filters: its name is the
    sanitized display name, a dot and the domain of the entry's
    lower-cased network; class IN, type A, stored TTL 0; its address is
    the entry's parsed IP, and [To4] accepts it.  The same holds for the
    AAAA list, with type AAAA and an address that [To4] rejects. *)
Theorem X6_built_records_stem_from_entries `{RT : GoRuntime}
  (p : unifinames) (ctl : unifi.Controller) (clients : list unifi.Client) :
  fetchYields p ctl clients ->
  Forall (fun c => exists entry,
              In entry clients
              /\ recordOf p entry (dns.A_Hdr c) (dns.A_A c) dns.TypeA
              /\ net.To4 (dns.A_A c) <> None)
    (aClients (fst (getClients p ctl)))
  /\ Forall (fun c => exists entry,
                In entry clients
                /\ recordOf p entry (dns.AAAA_Hdr c) (dns.AAAA_AAAA c) dns.TypeAAAA
                /\ net.To4 (dns.AAAA_AAAA c) = None)
       (aaaaClients (fst (getClients p ctl))).
Proof.
  intros Hy. rewrite (getClients_yields _ _ _ Hy). cbn [fst].
  apply (addClients_sound p clients clients).
  - intros entry h ip Hin Hrec H4. exists entry. cbn [dns.A_Hdr dns.A_A]. auto.
  - intros entry h ip Hin Hrec H4. exists entry.
    cbn [dns.AAAA_Hdr dns.AAAA_AAAA]. auto.
  - apply incl_refl.
  - reflexivity.
  - constructor.
  - constructor.
Qed.

Lemma X6_built_records_witness :
  let p := newPlugin (lanConfig (str "home.arpa.")) in
  let clients := [livingRoomTV []; printer; laptop] in
  Forall (fun c => exists entry,
              In entry clients
              /\ recordOf (RT := asciiRuntime) p entry (dns.A_Hdr c) (dns.A_A c)
                   dns.TypeA
              /\ net.To4 (dns.A_A c) <> None)
    (aClients (fst (getClients (RT := asciiRuntime) p (controllerListing clients))))
  /\ Forall (fun c => exists entry,
                In entry clients
                /\ recordOf (RT := asciiRuntime) p entry (dns.AAAA_Hdr c)
                     (dns.AAAA_AAAA c) dns.TypeAAAA
                /\ net.To4 (dns.AAAA_AAAA c) = None)
       (aaaaClients
          (fst (getClients (RT := asciiRuntime) p (controllerListing clients)))).
Proof.
  apply (X6_built_records_stem_from_entries (RT := asciiRuntime)
           (newPlugin (lanConfig (str "home.arpa.")))
           (controllerListing [livingRoomTV []; printer; laptop])
           [livingRoomTV []; printer; laptop]).
  eexists _, _. repeat split.
Defined.

(** X7. After a successful [getClients] every listed entry that passes
    the filters (display name and sanitized name not empty, IP parses,
    network mapped) and that the FQDN check does not reject has a record
    in one of the two lists. *)
Theorem X7_kept_entry_has_record `{RT : GoRuntime}
  (p : unifinames) (ctl : unifi.Controller) (clients : list unifi.Client)
  (entry : unifi.Client) :
  fetchYields p ctl clients ->
  In entry clients ->
  ~ filteredOut p entry ->
  dns_val_IsFQDN (sanitizeName (selectedName p entry)) = false ->
  (exists c, In c (aClients (fst (getClients p ctl)))
             /\ recordOf p entry (dns.A_Hdr c) (dns.A_A c) dns.TypeA)
  \/ (exists c, In c (aaaaClients (fst (getClients p ctl)))
                /\ recordOf p entry (dns.AAAA_Hdr c) (dns.AAAA_AAAA c)
                     dns.TypeAAAA).
Proof.
  intros Hy Hin Hkeep Hfq. rewrite (getClients_yields _ _ _ Hy). cbn [fst].
  apply in_split in Hin as (l1 & l2 & ->).
  rewrite addClients_app. cbn [addClients].
  set (q := addClients (set_aaaaClients (set_aClients p []) []) l1).
  assert (Hc : Config q = Config p)
    by (unfold q; now rewrite addClients_Config).
  destruct (addClients_extends l2 (addClient q entry))
    as (nA & nAAAA & HA & HAAAA & _).
  rewrite HA, HAAAA.
  destruct (addClient_spec q entry)
    as [[_ [Hf | Hfq']] | [(h & ip & Hrec & _ & ->) | (h & ip & Hrec & _ & ->)]].
  - exfalso. apply Hkeep. eapply filteredOut_Config; eassumption.
  - exfalso. unfold selectedName in *. rewrite Hc in Hfq'. congruence.
  - left. exists (dns.mkA h ip). split.
    + cbn [set_aClients aClients]. apply in_or_app. left.
      apply in_or_app. right. now left.
    + eapply recordOf_Config; eassumption.
  - right. exists (dns.mkAAAA h ip). split.
    + cbn [set_aaaaClients aaaaClients]. apply in_or_app. left.
      apply in_or_app. right. now left.
    + eapply recordOf_Config; eassumption.
Qed.

Lemma X7_kept_entry_witness :
  let p := newPlugin (lanConfig (str "home.arpa.")) in
  let ctl := controllerListing [livingRoomTV []; printer; laptop] in
  (exists c, In c (aClients (fst (getClients (RT := asciiRuntime) p ctl)))
             /\ recordOf (RT := asciiRuntime) p laptop (dns.A_Hdr c) (dns.A_A c)
                  dns.TypeA)
  \/ (exists c, In c (aaaaClients (fst (getClients (RT := asciiRuntime) p ctl)))
                /\ recordOf (RT := asciiRuntime) p laptop (dns.AAAA_Hdr c)
                     (dns.AAAA_AAAA c) dns.TypeAAAA).
Proof.
  apply (X7_kept_entry_has_record (RT := asciiRuntime)
           (newPlugin (lanConfig (str "home.arpa.")))
           (controllerListing [livingRoomTV []; printer; laptop])
           [livingRoomTV []; printer; laptop] laptop).
  - eexists _, _. repeat split.
  - right. right. now left.
  - intros [H | [H | [H | H]]]; vm_compute in H; discriminate.
  - reflexivity.
Defined.

(** X8. A successful [getClients] builds at most one record per listed
    entry: the two lists together are no longer than the listing. *)
Theorem X8_at_most_one_record_per_entry `{RT : GoRuntime}
  (p : unifinames) (ctl : unifi.Controller) (clients : list unifi.Client) :
  fetchYields p ctl clients ->
  (length (aClients (fst (getClients p ctl)))
   + length (aaaaClients (fst (getClients p ctl)))
   <= length clients)%nat.
Proof.
  intros Hy. rewrite (getClients_yields _ _ _ Hy). cbn [fst].
  destruct (addClients_extends clients (set_aaaaClients (set_aClients p []) []))
    as (nA & nAAAA & -> & -> & Hlen).
  exact Hlen.
Qed.

Lemma X8_at_most_one_record_witness :
  let p := newPlugin (lanConfig (str "home.arpa.")) in
  let clients := [livingRoomTV []; printer; laptop] in
  (length (aClients (fst (getClients (RT := asciiRuntime) p
                            (controllerListing clients))))
   + length (aaaaClients (fst (getClients (RT := asciiRuntime) p
                                 (controllerListing clients))))
   <= length clients)%nat.
Proof.
  apply (X8_at_most_one_record_per_entry (RT := asciiRuntime)
           (newPlugin (lanConfig (str "home.arpa.")))
           (controllerListing [livingRoomTV []; printer; laptop])
           [livingRoomTV []; printer; laptop]).
  eexists _, _. repeat split.
Defined.

(** X9. A successful [getClients] replaces the snapshot: the lists it
    leaves depend on the configuration and the listing only, not on the
    records or the other fields the plugin held before. *)
Theorem X9_refresh_replaces_snapshot `{RT : GoRuntime}
  (p p' : unifinames) (ctl : unifi.Controller) (clients : list unifi.Client) :
  fetchYields p ctl clients ->
  Config p' = Config p ->
  aClients (fst (getClients p' ctl)) = aClients (fst (getClients p ctl))
  /\ aaaaClients (fst (getClients p' ctl)) = aaaaClients (fst (getClients p ctl)).
Proof.
  intros Hy Hc.
  assert (Hy' : fetchYields p' ctl clients)
    by (unfold fetchYields in *; now rewrite Hc).
  rewrite (getClients_yields _ _ _ Hy), (getClients_yields _ _ _ Hy'). cbn [fst].
  apply addClients_same_lists; [exact Hc | reflexivity | reflexivity].
Qed.

Lemma X9_refresh_replaces_witness :
  let p := newPlugin (lanConfig (str "home.arpa.")) in
  let p' := refreshedOnce (str "home.arpa.") 0 in
  let ctl := controllerListing [printer; laptop] in
  aClients (fst (getClients (RT := asciiRuntime) p' ctl))
  = aClients (fst (getClients (RT := asciiRuntime) p ctl))
  /\ aaaaClients (fst (getClients (RT := asciiRuntime) p' ctl))
     = aaaaClients (fst (getClients (RT := asciiRuntime) p ctl)).
Proof.
  apply (X9_refresh_replaces_snapshot (RT := asciiRuntime)
           (newPlugin (lanConfig (str "home.arpa.")))
           (refreshedOnce (str "home.arpa.") 0)
           (controllerListing [printer; laptop]) [printer; laptop]).
  - eexists _, _. repeat split.
  - reflexivity.
Defined.

(** X10. [getClients] writes the two record lists only: whatever the
    upstream does, the configuration, [lastUpdate], [IsReady] and
    [haveRoutine] are as before. *)
Theorem X10_getClients_frame `{RT : GoRuntime}
  (p : unifinames) (ctl : unifi.Controller) :
  Config (fst (getClients p ctl)) = Config p
  /\ lastUpdate (fst (getClients p ctl)) = lastUpdate p
  /\ IsReady (fst (getClients p ctl)) = IsReady p
  /\ haveRoutine (fst (getClients p ctl)) = haveRoutine p.
Proof.
  unfold getClients.
  destruct (ctl _) as [uni|e]; [|repeat split].
  destruct (unifi.GetSites uni) as [sites|e]; [|repeat split].
  destruct (unifi.GetClients uni sites) as [clients|e]; [|repeat split].
  cbn [fst].
  destruct (addClients_frame clients (set_aaaaClients (set_aClients p []) []))
    as (-> & -> & -> & ->).
  repeat split.
Qed.

(* ===================================================================== *)
(** ** Further properties of the refresh paths *)
(* ===================================================================== *)

Lemma Ready_result `{RT : GoRuntime}
  (p : unifinames) (ctl : unifi.Controller) (now : time.Time) :
  snd (Ready p ctl now) = true /\ IsReady (fst (Ready p ctl now)) = true.
Proof.
  unfold Ready. destruct (IsReady p) eqn:Hr; cbn [negb].
  - now split.
  - destruct (getClients p ctl) as [q [e|]]; now split.
Qed.

(** X11. [Ready] always returns [true] and leaves [IsReady] set, also
    when the refresh it ran failed; every later call returns [true]
    without touching the plugin or the upstream. *)
Theorem X11_Ready_always_true `{RT : GoRuntime}
  (p : unifinames) (ctl ctl' : unifi.Controller) (now now' : time.Time) :
  snd (Ready p ctl now) = true
  /\ IsReady (fst (Ready p ctl now)) = true
  /\ Ready (fst (Ready p ctl now)) ctl' now' = (fst (Ready p ctl now), true).
Proof.
  destruct (Ready_result p ctl now) as [Hres Hready].
  split; [exact Hres|]. split; [exact Hready|].
  unfold Ready at 1. now rewrite Hready.
Qed.

(** X12. A readiness refresh whose upstream fetch fails keeps both
    record lists and the configuration, and still marks the plugin
    ready. *)
Theorem X12_Ready_failure_keeps_snapshot `{RT : GoRuntime}
  (p : unifinames) (ctl : unifi.Controller) (now : time.Time) :
  IsReady p = false ->
  fetchFails p ctl ->
  aClients (fst (Ready p ctl now)) = aClients p
  /\ aaaaClients (fst (Ready p ctl now)) = aaaaClients p
  /\ Config (fst (Ready p ctl now)) = Config p
  /\ IsReady (fst (Ready p ctl now)) = true.
Proof.
  intros Hr Hf. unfold Ready. rewrite Hr. cbn [negb].
  destruct (getClients_fails p ctl Hf) as (err & ->). repeat split.
Qed.

Lemma X12_Ready_failure_witness :
  let p := refreshedOnce (str "home.arpa.") 0 in
  let now := 600 * time.Second in
  aClients (fst (Ready (RT := asciiRuntime) p controllerUnreachable now))
  = aClients p
  /\ aaaaClients (fst (Ready (RT := asciiRuntime) p controllerUnreachable now))
     = aaaaClients p
  /\ Config (fst (Ready (RT := asciiRuntime) p controllerUnreachable now))
     = Config p
  /\ IsReady (fst (Ready (RT := asciiRuntime) p controllerUnreachable now))
     = true.
Proof.
  apply (X12_Ready_failure_keeps_snapshot (RT := asciiRuntime)
           (refreshedOnce (str "home.arpa.") 0) controllerUnreachable
           (600 * time.Second)).
  - reflexivity.
  - left. eexists. reflexivity.
Defined.

(** X13. A refresh of the goroutine whose upstream fetch fails changes
    nothing at all: [update] returns the plugin it was given. *)
Theorem X13_update_failure_changes_nothing `{RT : GoRuntime}
  (p : unifinames) (ctl : unifi.Controller) (now : time.Time) :
  fetchFails p ctl -> update p ctl now = p.
Proof.
  intros Hf. unfold update. now destruct (getClients_fails p ctl Hf) as (err & ->).
Qed.

Lemma X13_update_failure_witness :
  let p := refreshedOnce (str "home.arpa.") 0 in
  update (RT := asciiRuntime) p controllerUnreachable (600 * time.Second) = p.
Proof.
  apply (X13_update_failure_changes_nothing (RT := asciiRuntime)
           (refreshedOnce (str "home.arpa.") 0) controllerUnreachable
           (600 * time.Second)).
  left. eexists. reflexivity.
Defined.

(** X14. On a successful fetch both refresh paths install the lists
    that [getClients] built and set [lastUpdate] to the current time;
    [update] leaves [IsReady] as it was and [Ready] sets it. *)
Theorem X14_successful_refresh_installs `{RT : GoRuntime}
  (p : unifinames) (ctl : unifi.Controller) (clients : list unifi.Client)
  (now : time.Time) :
  fetchYields p ctl clients ->
  update p ctl now = set_lastUpdate (fst (getClients p ctl)) now
  /\ IsReady (update p ctl now) = IsReady p
  /\ (IsReady p = false ->
      fst (Ready p ctl now)
      = set_IsReady (set_lastUpdate (fst (getClients p ctl)) now) true).
Proof.
  intros Hy. unfold update, Ready. rewrite (getClients_yields _ _ _ Hy).
  cbn [fst]. split; [reflexivity|]. split.
  - cbn [set_lastUpdate IsReady].
    now destruct (addClients_frame clients (set_aaaaClients (set_aClients p []) []))
      as (_ & _ & -> & _).
  - intros ->. reflexivity.
Qed.

Lemma X14_successful_refresh_witness :
  let p := newPlugin (lanConfig (str "home.arpa.")) in
  let ctl := controllerListing [livingRoomTV []; laptop] in
  let now := 42 * time.Second in
  update (RT := asciiRuntime) p ctl now
  = set_lastUpdate (fst (getClients (RT := asciiRuntime) p ctl)) now
  /\ IsReady (update (RT := asciiRuntime) p ctl now) = IsReady p
  /\ (IsReady p = false ->
      fst (Ready (RT := asciiRuntime) p ctl now)
      = set_IsReady
          (set_lastUpdate (fst (getClients (RT := asciiRuntime) p ctl)) now) true).
Proof.
  apply (X14_successful_refresh_installs (RT := asciiRuntime)
           (newPlugin (lanConfig (str "home.arpa.")))
           (controllerListing [livingRoomTV []; laptop])
           [livingRoomTV []; laptop] (42 * time.Second)).
  eexists _, _. repeat split.
Defined.

(* ===================================================================== *)
(** ** Further properties of the resolver *)
(* ===================================================================== *)

Section ResolverMore.
Context `{RT : GoRuntime}.

Lemma scanA_no_match (p : unifinames) (clients : list dns.A) (name : gostring)
  (now : time.Time) (rrs : list dns.RR) :
  Forall (fun c => strings_EqualFold (dns.Name (dns.A_Hdr c)) name = false) clients ->
  scanA p clients name now rrs = (p, rrs).
Proof.
  induction 1 as [|c rest Hc _ IH]; [reflexivity|].
  cbn [scanA]. now rewrite Hc.
Qed.

Lemma scanAAAA_no_match (p : unifinames) (clients : list dns.AAAA)
  (name : gostring) (now : time.Time) (rrs : list dns.RR) :
  Forall (fun c => strings_EqualFold (dns.Name (dns.AAAA_Hdr c)) name = false)
    clients ->
  scanAAAA p clients name now rrs = (p, rrs).
Proof.
  induction 1 as [|c rest Hc _ IH]; [reflexivity|].
  cbn [scanAAAA]. now rewrite Hc.
Qed.

Lemma match_or_not {T : Type} (f : T -> bool) (l : list T) :
  (exists c, In c l /\ f c = true) \/ Forall (fun c => f c = false) l.
Proof.
  induction l as [|c rest [(c' & Hin & Hc') | Hnone]].
  - right. constructor.
  - left. exists c'. split; [now right | exact Hc'].
  - destruct (f c) eqn:Ec.
    + left. exists c. split; [now left | exact Ec].
    + right. now constructor.
Qed.

Lemma no_match_not_In {T : Type} (f : T -> bool) (l : list T) (c : T) :
  Forall (fun c => f c = false) l -> In c l -> f c = true -> False.
Proof.
  intros Hall Hin Hc. rewrite List.Forall_forall in Hall.
  specialize (Hall c Hin). congruence.
Qed.

(** The loop body adds one answer for an answerable question and
    nothing for any other. *)
Lemma resolveQuestion_spec (p : unifinames) (q : dns.Question)
  (now : time.Time) (rrs : list dns.RR) :
  (answerable p q
   /\ exists rr, resolveQuestion p q now rrs = (p, rrs ++ [rr])
                 /\ answerOf p q (liveTtl p now) rr)
  \/ (~ answerable p q /\ resolveQuestion p q now rrs = (p, rrs)).
Proof.
  unfold resolveQuestion, answerable.
  destruct (Z.eqb_spec (dns.Qclass q) dns.ClassINET) as [Hclass|Hclass]; cbn [negb].
  2:{ right. split; [intros [? _]; contradiction | reflexivity]. }
  destruct (Z.eqb_spec (dns.Qtype q) dns.TypeA) as [HtA|HtA].
  - destruct (shouldHandle p (strings_ToLower (dns.QName q))) eqn:Hsh.
    2:{ right. split; [|reflexivity]. intros (_ & Hin & _).
        apply shouldHandle_true in Hin. congruence. }
    apply shouldHandle_true in Hsh.
    destruct (match_or_not
                (fun c => strings_EqualFold (dns.Name (dns.A_Hdr c)) (dns.QName q))
                (aClients p)) as [Hex | Hnone].
    + left. split; [split; [exact Hclass | split; [exact Hsh | left; auto]]|].
      destruct (scanA_first_match p (aClients p) (dns.QName q) now rrs Hex)
        as (before & c & after & Hsplit & Hc & Hbefore & ->).
      eexists. split; [reflexivity|]. cbn [answerOf]. split; [exact HtA|].
      exists c. split; [|reflexivity]. exists before, after. auto.
    + right. split; [|now apply scanA_no_match].
      intros (_ & _ & [[_ (c & Hin & Hc)] | [HtAAAA _]]).
      * exact (no_match_not_In _ _ _ Hnone Hin Hc).
      * rewrite HtA in HtAAAA. discriminate.
  - destruct (Z.eqb_spec (dns.Qtype q) dns.TypeAAAA) as [HtAAAA|HtAAAA].
    + destruct (shouldHandle p (strings_ToLower (dns.QName q))) eqn:Hsh.
      2:{ right. split; [|reflexivity]. intros (_ & Hin & _).
          apply shouldHandle_true in Hin. congruence. }
      apply shouldHandle_true in Hsh.
      destruct (match_or_not
                  (fun c => strings_EqualFold (dns.Name (dns.AAAA_Hdr c))
                              (dns.QName q))
                  (aaaaClients p)) as [Hex | Hnone].
      * left. split; [split; [exact Hclass | split; [exact Hsh | right; auto]]|].
        destruct (scanAAAA_first_match p (aaaaClients p) (dns.QName q) now rrs Hex)
          as (before & c & after & Hsplit & Hc & Hbefore & ->).
        eexists. split; [reflexivity|]. cbn [answerOf]. split; [exact HtAAAA|].
        exists c. split; [|reflexivity]. exists before, after. auto.
      * right. split; [|now apply scanAAAA_no_match].
        intros (_ & _ & [[HtA' _] | [_ (c & Hin & Hc)]]).
        -- contradiction.
        -- exact (no_match_not_In _ _ _ Hnone Hin Hc).
    + right. split; [|reflexivity].
      intros (_ & _ & [[? _] | [? _]]); contradiction.
Qed.

(** The loop: what it appends to [rrs]. *)
Lemma resolveLoop_spec (p : unifinames) (qs : list dns.Question)
  (clock : nat -> time.Time) (i : nat) (rrs : list dns.RR) :
  exists extra,
    resolveLoop p qs clock i rrs = (p, rrs ++ extra)
    /\ (length extra <= length qs)%nat
    /\ (extra = [] <-> forall q, In q qs -> ~ answerable p q)
    /\ Forall (fun rr => exists j q,
                   nth_error qs j = Some q
                   /\ answerable p q
                   /\ answerOf p q (liveTtl p (clock (i + j)%nat)) rr)
         extra.
Proof.
  revert i rrs. induction qs as [|q rest IH]; intros i rrs.
  - exists []. rewrite app_nil_r. repeat split; auto; try (intros _ q []).
  - cbn [resolveLoop].
    destruct (resolveQuestion_spec p q (clock i) rrs)
      as [(Hans & rr & -> & Hrr) | (Hno & ->)].
    + destruct (IH (S i) (rrs ++ [rr])) as (extra & -> & Hlen & _ & Hall).
      exists (rr :: extra). rewrite <- app_assoc. cbn [app length].
      split; [reflexivity|]. split; [lia|]. split.
      * split; [discriminate|]. intros Hnone. exfalso.
        apply (Hnone q); [now left | exact Hans].
      * constructor.
        -- exists 0%nat, q. rewrite Nat.add_0_r. cbn [nth_error]. auto.
        -- eapply List.Forall_impl; [|exact Hall].
           intros rr' (j & q' & Hj & Hq' & Hrr').
           exists (S j), q'. rewrite Nat.add_succ_r. cbn [nth_error]. auto.
    + destruct (IH (S i) rrs) as (extra & -> & Hlen & Hnil & Hall).
      exists extra. cbn [length].
      split; [reflexivity|]. split; [lia|]. split.
      * rewrite Hnil. split.
        -- intros Hrest q' [<-|Hin]; [exact Hno | now apply Hrest].
        -- intros Hall' q' Hin. apply Hall'. now right.
      * eapply List.Forall_impl; [|exact Hall].
        intros rr' (j & q' & Hj & Hq' & Hrr').
        exists (S j), q'. rewrite Nat.add_succ_r. cbn [nth_error]. auto.
Qed.

(** [resolve] in terms of the answers the loop collects. *)
Lemma resolve_spec (p : unifinames) (r : dns.Msg) (clock : nat -> time.Time) :
  exists answers,
    (length answers <= length (dns.Questions r))%nat
    /\ (answers = [] <-> forall q, In q (dns.Questions r) -> ~ answerable p q)
    /\ Forall (fun rr => exists j q,
                   nth_error (dns.Questions r) j = Some q
                   /\ answerable p q
                   /\ answerOf p q (liveTtl p (clock j)) rr)
         answers
    /\ resolve p r clock
       = match answers with
         | [] => (p, false, None)
         | _ :: _ =>
             (p, true,
              Some (dns.setAnswer (dns.SetReply dns.newMsg r) answers))
         end.
Proof.
  unfold resolve.
  destruct (dns.Questions r) as [|q rest] eqn:Eq.
  - exists []. repeat split; auto; try (intros _ q []).
  - destruct (resolveLoop_spec p (q :: rest) clock 0 [])
      as (answers & -> & Hlen & Hnil & Hall).
    exists answers. cbn [app].
    split; [exact Hlen|]. split; [exact Hnil|]. split; [exact Hall|].
    now destruct answers.
Qed.

Lemma resolve_answers_iff (p : unifinames) (r : dns.Msg) (clock : nat -> time.Time) :
  snd (fst (resolve p r clock)) = true
  <-> exists q, In q (dns.Questions r) /\ answerable p q.
Proof.
  destruct (resolve_spec p r clock) as (answers & _ & Hnil & Hall & ->).
  destruct answers as [|rr rest]; cbn [fst snd].
  - split; [discriminate|]. intros (q & Hin & Hq).
    destruct Hnil as [Hnil _]. exfalso. exact (Hnil eq_refl q Hin Hq).
  - split; [|reflexivity]. intros _.
    inversion Hall as [|? ? (j & q & Hj & Hq & _) _]; subst.
    exists q. split; [eapply nth_error_In; exact Hj | exact Hq].
Qed.

Lemma resolve_unanswerable (p : unifinames) (r : dns.Msg)
  (clock : nat -> time.Time) :
  (forall q, In q (dns.Questions r) -> ~ answerable p q) ->
  resolve p r clock = (p, false, None).
Proof.
  intros Hnone.
  destruct (resolve_spec p r clock) as (answers & _ & Hnil & _ & ->).
  apply Hnil in Hnone. now subst answers.
Qed.

End ResolverMore.

(** X15. [resolve] returns [true] exactly when some question of the
    query is of class IN, has a name that, lower-cased, ends with a
    configured domain, and is of type A or AAAA with its name present in
    the record list of that type. *)
Theorem X15_resolve_answers_iff `{RT : GoRuntime}
  (p : unifinames) (r : dns.Msg) (clock : nat -> time.Time) :
  snd (fst (resolve p r clock)) = true
  <-> exists q, In q (dns.Questions r) /\ answerable p q.
Proof. exact (resolve_answers_iff p r clock). Qed.

(** X16. [resolve] writes a message exactly when it returns [true].  The
    message is a response with the query's id and opcode, rcode success,
    the first question of the query only, and at least one answer but
    no more answers than the query has questions. *)
Theorem X16_reply_shape `{RT : GoRuntime}
  (p : unifinames) (r : dns.Msg) (clock : nat -> time.Time) :
  match snd (resolve p r clock) with
  | Some m =>
      snd (fst (resolve p r clock)) = true
      /\ dns.Id m = dns.Id r
      /\ dns.Response m = true
      /\ dns.Opcode m = dns.Opcode r
      /\ dns.Rcode m = dns.RcodeSuccess
      /\ dns.Questions m = firstn 1 (dns.Questions r)
      /\ (1 <= length (dns.Answer m) <= length (dns.Questions r))%nat
  | None => snd (fst (resolve p r clock)) = false
  end.
Proof.
  destruct (resolve_spec p r clock) as (answers & Hlen & _ & _ & ->).
  destruct answers as [|rr rest]; cbn [fst snd]; [reflexivity|].
  cbn [dns.setAnswer dns.SetReply dns.Id dns.Response dns.Opcode dns.Rcode
       dns.Questions dns.Answer dns.newMsg].
  repeat split; try (cbn [length] in *; lia).
Qed.

(** X17. Every answer that [resolve] writes is a copy of a cached
    record: for some question of the query, of class IN, it is the first
    record of the question's type whose name equals the question name
    under case folding, with the TTL field set to the live TTL at the
    time the question was handled, a value of the [uint32] range. *)
Theorem X17_answers_are_cached_copies `{RT : GoRuntime}
  (p : unifinames) (r : dns.Msg) (clock : nat -> time.Time) (m : dns.Msg) :
  snd (resolve p r clock) = Some m ->
  Forall (fun rr => exists j q,
              nth_error (dns.Questions r) j = Some q
              /\ dns.Qclass q = dns.ClassINET
              /\ answerOf p q (liveTtl p (clock j)) rr
              /\ dns.Ttl (dns.Header rr) = liveTtl p (clock j)
              /\ 0 <= dns.Ttl (dns.Header rr) < 2 ^ 32
              /\ strings_EqualFold (dns.Name (dns.Header rr)) (dns.QName q) = true)
    (dns.Answer m).
Proof.
  destruct (resolve_spec p r clock) as (answers & _ & _ & Hall & ->).
  destruct answers as [|rr0 rest]; cbn [snd]; [discriminate|].
  intros [= <-]. cbn [dns.setAnswer dns.Answer].
  eapply List.Forall_impl; [|exact Hall].
  intros rr (j & q & Hj & (Hclass & _ & _) & Hrr).
  exists j, q. split; [exact Hj|]. split; [exact Hclass|]. split; [exact Hrr|].
  assert (Hrange : 0 <= liveTtl p (clock j) < 2 ^ 32)
    by (unfold liveTtl, uint32; apply Z.mod_pos_bound; lia).
  destruct rr as [a|a]; cbn [answerOf] in Hrr;
    destruct Hrr as (_ & c & (before & after & _ & Hc & _) & ->);
    cbn [dns.Header dns.A_Hdr dns.AAAA_Hdr dns.setTtl dns.Ttl dns.Name]; auto.
Qed.

Lemma X17_answers_witness :
  exists m,
    snd (resolve (RT := asciiRuntime) (refreshedOnce (str "home.arpa.") 0)
           (query (str "Living-Room-TV.home.arpa.") dns.TypeA)
           (fun _ => 100 * time.Second))
    = Some m
    /\ Forall (fun rr => exists j q,
                   nth_error
                     (dns.Questions (query (str "Living-Room-TV.home.arpa.")
                                       dns.TypeA)) j = Some q
                   /\ dns.Qclass q = dns.ClassINET
                   /\ answerOf (RT := asciiRuntime)
                        (refreshedOnce (str "home.arpa.") 0) q
                        (liveTtl (RT := asciiRuntime)
                           (refreshedOnce (str "home.arpa.") 0)
                           (100 * time.Second)) rr
                   /\ dns.Ttl (dns.Header rr)
                      = liveTtl (RT := asciiRuntime)
                          (refreshedOnce (str "home.arpa.") 0)
                          (100 * time.Second)
                   /\ 0 <= dns.Ttl (dns.Header rr) < 2 ^ 32
                   /\ strings_EqualFold (RT := asciiRuntime)
                        (dns.Name (dns.Header rr)) (dns.QName q) = true)
         (dns.Answer m).
Proof.
  eexists. split; [vm_compute; reflexivity|].
  apply (X17_answers_are_cached_copies (RT := asciiRuntime)
           (refreshedOnce (str "home.arpa.") 0)
           (query (str "Living-Room-TV.home.arpa.") dns.TypeA)
           (fun _ => 100 * time.Second)).
  vm_compute. reflexivity.
Defined.

(** X18. Questions of another class than IN and questions of another
    type than A and AAAA are never answered: a query made of such
    questions only is passed on, whatever the cache holds. *)
Theorem X18_other_class_or_type_not_answered `{RT : GoRuntime}
  (p : unifinames) (r : dns.Msg) (clock : nat -> time.Time) :
  (forall q, In q (dns.Questions r) ->
             dns.Qclass q <> dns.ClassINET
             \/ (dns.Qtype q <> dns.TypeA /\ dns.Qtype q <> dns.TypeAAAA)) ->
  resolve p r clock = (p, false, None).
Proof.
  intros Hq. apply resolve_unanswerable.
  intros q Hin (Hclass & _ & Hcached).
  destruct (Hq q Hin) as [Hc | [HA HAAAA]]; [contradiction|].
  destruct Hcached as [[? _] | [? _]]; contradiction.
Qed.

Lemma X18_other_class_or_type_witness :
  let p := refreshedOnce (str "home.arpa.") 0 in
  let r :=
    dns.mkMsg 7 false dns.OpcodeQuery true false 0
      [dns.mkQuestion (str "living-room-tv.home.arpa.") 16 dns.ClassINET;
       dns.mkQuestion (str "living-room-tv.home.arpa.") dns.TypeA 3] [] in
  resolve (RT := asciiRuntime) p r (fun _ => 0) = (p, false, None).
Proof.
  apply (X18_other_class_or_type_not_answered (RT := asciiRuntime)).
  intros q [<- | [<- | []]].
  - right. split; discriminate.
  - left. discriminate.
Defined.

(** X19. A plugin whose two record lists are empty, as before the first
    successful refresh, answers no query. *)
Theorem X19_empty_cache_answers_nothing `{RT : GoRuntime}
  (p : unifinames) (r : dns.Msg) (clock : nat -> time.Time) :
  aClients p = [] -> aaaaClients p = [] ->
  resolve p r clock = (p, false, None).
Proof.
  intros H4 H6. apply resolve_unanswerable.
  intros q _ (_ & _ & [[_ (c & Hin & _)] | [_ (c & Hin & _)]]).
  - rewrite H4 in Hin. destruct Hin.
  - rewrite H6 in Hin. destruct Hin.
Qed.

Lemma X19_empty_cache_witness :
  let p := newPlugin (lanConfig (str "home.arpa.")) in
  resolve (RT := asciiRuntime) p
    (query (str "living-room-tv.home.arpa.") dns.TypeA) (fun _ => 0)
  = (p, false, None).
Proof.
  apply (X19_empty_cache_answers_nothing (RT := asciiRuntime)
           (newPlugin (lanConfig (str "home.arpa.")))); reflexivity.
Defined.

(* ===================================================================== *)
(** ** From the build to the answer *)
(* ===================================================================== *)

Lemma hasPrefix_app (x y : gostring) : hasPrefix (x ++ y) x = true.
Proof.
  induction x as [|a x IH]; [now destruct y|].
  cbn [app hasPrefix]. now rewrite Z.eqb_refl, IH.
Qed.

Lemma HasSuffix_app (a d : gostring) : strings_HasSuffix (a ++ d) d = true.
Proof. unfold strings_HasSuffix. rewrite rev_app_distr. apply hasPrefix_app. Qed.

Lemma foldEqRune_lower_ascii `{RT : GoRuntime} (r : rune) :
  0 <= r <= MaxASCII -> foldEqRune (unicode_ToLower r) r = true.
Proof.
  unfold foldEqRune, unicode_ToLower, MaxASCII.
  change (rune_of "a") with 97; change (rune_of "A") with 65;
  change (rune_of "Z") with 90.
  intros Hr. destruct (Z.leb_spec r 127) as [_|]; [|lia].
  destruct (Z.leb_spec 65 r), (Z.leb_spec r 90); cbn [andb];
    try (rewrite Z.eqb_refl; reflexivity).
  destruct (Z.eqb_spec r (r + (97 - 65))) as [|_]; [lia|].
  rewrite Z.min_r, Z.max_l by lia.
  destruct (Z.leb_spec (r + (97 - 65)) 127) as [_|]; [|lia].
  rewrite Z.eqb_refl, (proj2 (Z.leb_le 65 r)), (proj2 (Z.leb_le r 90)) by lia.
  reflexivity.
Qed.

Lemma EqualFold_lower_ascii `{RT : GoRuntime} (n : gostring) :
  asciiOnly n -> strings_EqualFold (strings_ToLower n) n = true.
Proof.
  unfold strings_ToLower. induction 1 as [|r n Hr _ IH]; [reflexivity|].
  cbn [List.map strings_EqualFold]. now rewrite foldEqRune_lower_ascii, IH.
Qed.

(** The names of the records of a successful refresh. *)
Lemma update_names `{RT : GoRuntime}
  (p0 : unifinames) (ctl : unifi.Controller) (clients : list unifi.Client)
  (t0 : time.Time) :
  fetchYields p0 ctl clients ->
  Config (update p0 ctl t0) = Config p0
  /\ Forall (fun c => exists label network domain,
                 dns.Name (dns.A_Hdr c) = label ++ str "." ++ domain
                 /\ Networks (Config p0) !! network = Some domain)
       (aClients (update p0 ctl t0))
  /\ Forall (fun c => exists label network domain,
                 dns.Name (dns.AAAA_Hdr c) = label ++ str "." ++ domain
                 /\ Networks (Config p0) !! network = Some domain)
       (aaaaClients (update p0 ctl t0)).
Proof.
  intros Hy. rewrite (update_success _ _ _ _ Hy).
  cbn [set_lastUpdate Config aClients aaaaClients].
  split; [now rewrite addClients_Config|].
  apply (addClients_sound p0 clients clients).
  - intros entry h ip _ (_ & _ & _ & _ & domain & Hlk & ->) _.
    cbn [dns.A_Hdr dns.Name]. eauto.
  - intros entry h ip _ (_ & _ & _ & _ & domain & Hlk & ->) _.
    cbn [dns.AAAA_Hdr dns.Name]. eauto.
  - apply incl_refl.
  - reflexivity.
  - constructor.
  - constructor.
Qed.

(** X20. After a successful refresh every record is reachable by its
    name, in any ASCII letter case: if an ASCII name, lower-cased, is
    the name of a record of the A list (of the AAAA list), a query that
    holds the type-A (type-AAAA) question of class IN for that name is
    answered. *)
Theorem X20_built_record_is_answered `{RT : GoRuntime}
  (p0 : unifinames) (ctl : unifi.Controller) (clients : list unifi.Client)
  (t0 : time.Time) (n : gostring) (qtype : Z)
  (r : dns.Msg) (clock : nat -> time.Time) :
  fetchYields p0 ctl clients ->
  asciiOnly n ->
  (qtype = dns.TypeA
   /\ exists c, In c (aClients (update p0 ctl t0))
                /\ dns.Name (dns.A_Hdr c) = strings_ToLower n)
  \/ (qtype = dns.TypeAAAA
      /\ exists c, In c (aaaaClients (update p0 ctl t0))
                   /\ dns.Name (dns.AAAA_Hdr c) = strings_ToLower n) ->
  In (dns.mkQuestion n qtype dns.ClassINET) (dns.Questions r) ->
  snd (fst (resolve (update p0 ctl t0) r clock)) = true.
Proof.
  intros Hy Hascii Hrec Hin. apply resolve_answers_iff.
  exists (dns.mkQuestion n qtype dns.ClassINET). split; [exact Hin|].
  destruct (update_names p0 ctl clients t0 Hy) as (Hc & H4 & H6).
  rewrite List.Forall_forall in H4, H6.
  unfold answerable, insideServedSuffix, cached.
  cbn [dns.Qclass dns.QName dns.Qtype]. rewrite Hc.
  split; [reflexivity|].
  destruct Hrec as [(-> & c & Hinc & Hname) | (-> & c & Hinc & Hname)].
  - destruct (H4 c Hinc) as (label & network & domain & Hn & Hlk). split.
    + exists network, domain. split; [exact Hlk|].
      rewrite <- Hname, Hn, app_assoc. apply HasSuffix_app.
    + left. split; [reflexivity|]. exists c. split; [exact Hinc|].
      rewrite Hname. now apply EqualFold_lower_ascii.
  - destruct (H6 c Hinc) as (label & network & domain & Hn & Hlk). split.
    + exists network, domain. split; [exact Hlk|].
      rewrite <- Hname, Hn, app_assoc. apply HasSuffix_app.
    + right. split; [reflexivity|]. exists c. split; [exact Hinc|].
      rewrite Hname. now apply EqualFold_lower_ascii.
Qed.

Lemma X20_built_record_witness :
  snd (fst (resolve (RT := asciiRuntime)
              (update (RT := asciiRuntime)
                 (newPlugin (lanConfig (str "home.arpa.")))
                 (controllerListing [livingRoomTV []; laptop]) 0)
              (query (str "Work-Laptop.Home.Arpa.") dns.TypeA)
              (fun _ => 7 * time.Second)))
  = true.
Proof.
  apply (X20_built_record_is_answered (RT := asciiRuntime)
           (newPlugin (lanConfig (str "home.arpa.")))
           (controllerListing [livingRoomTV []; laptop])
           [livingRoomTV []; laptop] 0 (str "Work-Laptop.Home.Arpa.") dns.TypeA).
  - eexists _, _. repeat split.
  - unfold asciiOnly. vm_compute. repeat constructor; discriminate.
  - left. split; [reflexivity|]. eexists. split; [right; left; reflexivity|].
    vm_compute. reflexivity.
  - left. reflexivity.
Defined.

(* ===================================================================== *)
(** ** Further properties of ServeDNS *)
(* ===================================================================== *)

Section ServeMore.
Context `{RT : GoRuntime}.

(** The resolver does not read [haveRoutine]. *)
Lemma scanA_flag (p : unifinames) (b : bool) (clients : list dns.A)
  (name : gostring) (now : time.Time) (rrs : list dns.RR) :
  scanA (set_haveRoutine p b) clients name now rrs
  = (set_haveRoutine p b, snd (scanA p clients name now rrs)).
Proof.
  induction clients as [|c rest IH]; [reflexivity|].
  cbn [scanA]. destruct (strings_EqualFold _ _); [reflexivity | exact IH].
Qed.

Lemma scanAAAA_flag (p : unifinames) (b : bool) (clients : list dns.AAAA)
  (name : gostring) (now : time.Time) (rrs : list dns.RR) :
  scanAAAA (set_haveRoutine p b) clients name now rrs
  = (set_haveRoutine p b, snd (scanAAAA p clients name now rrs)).
Proof.
  induction clients as [|c rest IH]; [reflexivity|].
  cbn [scanAAAA]. destruct (strings_EqualFold _ _); [reflexivity | exact IH].
Qed.

Lemma resolveQuestion_flag (p : unifinames) (b : bool) (q : dns.Question)
  (now : time.Time) (rrs : list dns.RR) :
  resolveQuestion (set_haveRoutine p b) q now rrs
  = (set_haveRoutine p b, snd (resolveQuestion p q now rrs)).
Proof.
  unfold resolveQuestion.
  change (shouldHandle (set_haveRoutine p b)) with (shouldHandle p).
  change (aClients (set_haveRoutine p b)) with (aClients p).
  change (aaaaClients (set_haveRoutine p b)) with (aaaaClients p).
  repeat match goal with
         | |- context [if ?c then _ else _] => destruct c
         end;
    auto using scanA_flag, scanAAAA_flag.
Qed.

Lemma resolveLoop_flag (p : unifinames) (b : bool) (qs : list dns.Question)
  (clock : nat -> time.Time) (i : nat) (rrs : list dns.RR) :
  resolveLoop (set_haveRoutine p b) qs clock i rrs
  = (set_haveRoutine p b, snd (resolveLoop p qs clock i rrs)).
Proof.
  revert i rrs. induction qs as [|q rest IH]; intros i rrs; [reflexivity|].
  cbn [resolveLoop]. rewrite resolveQuestion_flag.
  pose proof (resolveQuestion_plugin p q (clock i) rrs) as Hq.
  destruct (resolveQuestion p q (clock i) rrs) as [p' rrs'].
  cbn [fst snd] in *. subst p'. apply IH.
Qed.

Lemma resolve_flag (p : unifinames) (b : bool) (r : dns.Msg)
  (clock : nat -> time.Time) :
  resolve (set_haveRoutine p b) r clock
  = (set_haveRoutine p b, snd (fst (resolve p r clock)), snd (resolve p r clock)).
Proof.
  unfold resolve. destruct (dns.Questions r) as [|q rest]; [reflexivity|].
  rewrite resolveLoop_flag.
  destruct (resolveLoop p (q :: rest) clock 0 []) as [p' rrs].
  cbn [snd]. now destruct rrs.
Qed.

(** [ServeDNS] as the guard followed by [resolve]. *)
Lemma ServeDNS_spec (p : unifinames) (r : dns.Msg) (clock : nat -> time.Time) :
  fst (fst (ServeDNS p r clock)) = set_haveRoutine p true
  /\ snd (fst (ServeDNS p r clock)) = negb (haveRoutine p)
  /\ snd (ServeDNS p r clock)
     = match snd (resolve p r clock) with
       | Some m => Answered dns.RcodeSuccess m
       | None => NextOrFailure
       end.
Proof.
  assert (Hp : (if negb (haveRoutine p) then set_haveRoutine p true else p)
               = set_haveRoutine p true)
    by (destruct p as [c a4 a6 lu rdy [|]]; reflexivity).
  unfold ServeDNS. rewrite Hp, resolve_flag.
  destruct (resolve_spec p r clock) as (answers & _ & _ & _ & ->).
  destruct answers; cbn [fst snd]; repeat split.
Qed.

End ServeMore.

(** X21. [ServeDNS] starts the refresh goroutine exactly when
    [haveRoutine] was not set, sets the flag and writes no other field;
    a call that follows a completed call never starts a goroutine. *)
Theorem X21_ServeDNS_starts_once_in_sequence `{RT : GoRuntime}
  (p : unifinames) (r r' : dns.Msg) (clock clock' : nat -> time.Time) :
  snd (fst (ServeDNS p r clock)) = negb (haveRoutine p)
  /\ fst (fst (ServeDNS p r clock)) = set_haveRoutine p true
  /\ snd (fst (ServeDNS (fst (fst (ServeDNS p r clock))) r' clock')) = false.
Proof.
  destruct (ServeDNS_spec p r clock) as (Hp & Hstarted & _).
  split; [exact Hstarted|]. split; [exact Hp|].
  destruct (ServeDNS_spec (fst (fst (ServeDNS p r clock))) r' clock')
    as (_ & -> & _).
  now rewrite Hp.
Qed.

(** X22. [ServeDNS] passes the query to the next handler exactly when no
    question of it is answerable; otherwise it returns rcode success
    and has written the message of [resolve]. *)
Theorem X22_ServeDNS_outcome `{RT : GoRuntime}
  (p : unifinames) (r : dns.Msg) (clock : nat -> time.Time) :
  (snd (ServeDNS p r clock) = NextOrFailure
   <-> forall q, In q (dns.Questions r) -> ~ answerable p q)
  /\ (forall rcode m,
        snd (ServeDNS p r clock) = Answered rcode m ->
        rcode = dns.RcodeSuccess /\ snd (resolve p r clock) = Some m).
Proof.
  destruct (ServeDNS_spec p r clock) as (_ & _ & ->).
  destruct (resolve_spec p r clock) as (answers & _ & Hnil & _ & ->).
  destruct answers as [|rr rest]; cbn [snd]; split.
  - split; [intros _; now apply Hnil | reflexivity].
  - discriminate.
  - split; [discriminate|]. intros Hnone. apply Hnil in Hnone. discriminate.
  - intros rcode m [= <- <-]. now split.
Qed.

(* ===================================================================== *)
(** ** The guard under any schedule *)
(* ===================================================================== *)

Lemma standing_le_length (c : Guard.pc) (l : list Guard.pc) :
  (standing c l <= length l)%nat.
Proof. unfold standing. apply List.filter_length_le. Qed.

Lemma standing_insert (c x y : Guard.pc) (l : list Guard.pc) (i : nat) :
  l !! i = Some y ->
  (standing c (<[i := x]> l) + (if pc_eqb c y then 1 else 0)
   = standing c l + (if pc_eqb c x then 1 else 0))%nat.
Proof.
  unfold standing. revert i. induction l as [|a l IH]; intros i Hi.
  - destruct i; discriminate.
  - destruct i as [|i].
    + cbn in Hi |- *. injection Hi as ->.
      destruct (pc_eqb c x), (pc_eqb c y); cbn [length]; lia.
    + change (<[S i := x]> (a :: l)) with (a :: <[i := x]> l).
      change ((a :: l) !! S i) with (l !! i) in Hi.
      specialize (IH i Hi). cbn [List.filter].
      destruct (pc_eqb c a); cbn [length]; lia.
Qed.

Lemma standing_all_past (l : list Guard.pc) :
  Forall (eq Guard.PastGuard) l ->
  standing Guard.AtGo l = 0%nat /\ standing Guard.PastGuard l = length l.
Proof.
  unfold standing. induction 1 as [|a l <- _ [IH1 IH2]]; [now split|].
  cbn. now rewrite IH1, IH2.
Qed.

Lemma standing_fresh (c : Guard.pc) (n : nat) :
  c <> Guard.AtLoad -> standing c (repeat Guard.AtLoad n) = 0%nat.
Proof.
  intros Hc. unfold standing. induction n as [|k IH]; [reflexivity|].
  cbn [repeat List.filter]. destruct c; try contradiction; exact IH.
Qed.

Lemma guardInv_step (g g' : Guard.state) (i : nat) :
  guardInv g -> Guard.step g i = Some g' ->
  guardInv g' /\ length (Guard.handlers g') = length (Guard.handlers g).
Proof.
  intros (Hoff & Hon & Hle). unfold Guard.step.
  destruct (Guard.handlers g !! i) as [[| | |]|] eqn:Hi; intros [= <-];
    cbn [Guard.handlers Guard.flag Guard.goroutines];
    (split; [|apply length_insert]);
    unfold guardInv; cbn [Guard.handlers Guard.flag Guard.goroutines].
  - pose proof (standing_insert Guard.AtGo
                  (if Guard.flag g then Guard.PastGuard else Guard.AtStore)
                  _ _ _ Hi) as Hgo.
    pose proof (standing_insert Guard.PastGuard
                  (if Guard.flag g then Guard.PastGuard else Guard.AtStore)
                  _ _ _ Hi) as Hpast.
    destruct (Guard.flag g); cbn [pc_eqb] in Hgo, Hpast;
      repeat split; intros; try discriminate;
      try (destruct (Hoff eq_refl) as (? & ? & ?));
      try (specialize (Hon eq_refl)); lia.
  - pose proof (standing_insert Guard.AtGo Guard.AtGo _ _ _ Hi) as Hgo.
    pose proof (standing_insert Guard.PastGuard Guard.AtGo _ _ _ Hi) as Hpast.
    cbn [pc_eqb] in Hgo, Hpast.
    repeat split; intros; try discriminate; lia.
  - pose proof (standing_insert Guard.AtGo Guard.PastGuard _ _ _ Hi) as Hgo.
    pose proof (standing_insert Guard.PastGuard Guard.PastGuard _ _ _ Hi) as Hpast.
    cbn [pc_eqb] in Hgo, Hpast.
    destruct (Guard.flag g) eqn:Hflag.
    + specialize (Hon eq_refl). repeat split; intros; try discriminate; lia.
    + destruct (Hoff eq_refl) as (_ & Hnone & _). lia.
Qed.

Lemma guardInv_run (schedule : list nat) (g g' : Guard.state) :
  guardInv g -> Guard.run g schedule = Some g' ->
  guardInv g' /\ length (Guard.handlers g') = length (Guard.handlers g).
Proof.
  revert g. induction schedule as [|i rest IH]; intros g Hinv; cbn [Guard.run].
  - intros [= <-]. now split.
  - destruct (Guard.step g i) as [g1|] eqn:Hstep; [|discriminate].
    destruct (guardInv_step g g1 i Hinv Hstep) as [Hinv1 Hlen1].
    intros Hrun. destruct (IH g1 Hinv1 Hrun) as [Hinv' Hlen'].
    split; [exact Hinv' | congruence].
Qed.

(** X23. Under every schedule of [n] handlers that arrive at a plugin
    that has served no query, no more goroutines are started than there
    are handlers past the guard, so at most [n]; none is started while
    the flag is unset; and once all handlers are past the guard, at
    least one has been started. *)
Theorem X23_guard_bounds (n : nat) (schedule : list nat) (g : Guard.state) :
  Guard.run (Guard.fresh n) schedule = Some g ->
  (Guard.goroutines g <= standing Guard.PastGuard (Guard.handlers g) <= n)%nat
  /\ (Guard.flag g = false -> Guard.goroutines g = 0%nat)
  /\ (Forall (eq Guard.PastGuard) (Guard.handlers g) -> (1 <= n)%nat ->
      (1 <= Guard.goroutines g)%nat).
Proof.
  intros Hrun.
  assert (Hinit : guardInv (Guard.fresh n)).
  { unfold guardInv, Guard.fresh.
    cbn [Guard.flag Guard.goroutines Guard.handlers].
    repeat split; intros; try discriminate; try lia;
      rewrite standing_fresh by discriminate; lia. }
  destruct (guardInv_run schedule _ _ Hinit Hrun) as [(Hoff & Hon & Hle) Hlen].
  unfold Guard.fresh in Hlen. cbn [Guard.handlers] in Hlen.
  rewrite repeat_length in Hlen.
  pose proof (standing_le_length Guard.PastGuard (Guard.handlers g)) as Hpast.
  split; [lia|]. split.
  - intros Hflag. now destruct (Hoff Hflag).
  - intros Hall Hn. destruct (standing_all_past _ Hall) as [Hgo Hall'].
    destruct (Guard.flag g) eqn:Hflag.
    + specialize (Hon eq_refl). lia.
    + destruct (Hoff eq_refl) as (_ & _ & Hnone). lia.
Qed.

Lemma X23_guard_bounds_witness :
  exists g,
    Guard.run (Guard.fresh 3) [0; 1; 0; 2; 0; 1; 1]%nat = Some g
    /\ (Guard.goroutines g <= standing Guard.PastGuard (Guard.handlers g) <= 3)%nat
    /\ (Guard.flag g = false -> Guard.goroutines g = 0%nat)
    /\ (Forall (eq Guard.PastGuard) (Guard.handlers g) -> (1 <= 3)%nat ->
        (1 <= Guard.goroutines g)%nat).
Proof.
  eexists. split; [vm_compute; reflexivity|].
  apply (X23_guard_bounds 3 [0; 1; 0; 2; 0; 1; 1]%nat).
  vm_compute. reflexivity.
Defined.

(* ===================================================================== *)
(** ** The served suffixes *)
(* ===================================================================== *)

(** X24. [shouldHandle] holds for a name exactly when some configured
    domain is a suffix of it, whatever the order in which the map is
    ranged over; the name is compared as given, the caller lower-cases
    it. *)
Theorem X24_shouldHandle_iff (p : unifinames) (name : gostring) :
  shouldHandle p name = true
  <-> exists network domain pre,
        Networks (Config p) !! network = Some domain /\ name = pre ++ domain.
Proof.
  rewrite shouldHandle_true. split.
  - intros (network & domain & Hlk & Hsuf). exists network, domain.
    unfold strings_HasSuffix in Hsuf.
    assert (Hpre : forall s q, hasPrefix s q = true -> exists t, s = q ++ t).
    { intros s q. revert s. induction q as [|x q IH]; intros s Hs.
      - exists s. reflexivity.
      - destruct s as [|y s]; [discriminate|]. cbn [hasPrefix] in Hs.
        apply andb_true_iff in Hs as [Hxy Hs]. apply Z.eqb_eq in Hxy. subst y.
        destruct (IH s Hs) as (t & ->). now exists t. }
    destruct (Hpre _ _ Hsuf) as (t & Ht).
    exists (rev t). split; [exact Hlk|].
    rewrite <- (rev_involutive name), Ht, rev_app_distr, rev_involutive.
    reflexivity.
  - intros (network & domain & pre & Hlk & ->).
    exists network, domain. split; [exact Hlk | apply HasSuffix_app].
Qed.
